(** * CrowdCastr: the relay server's session, live-selection and settings logic

    Two server programs live in the repository:
    - [src/server.js], the HTTPS server with process-wide [streams],
      [activeLiveDevice], [displaySettings] and [mobileSettings]
      (module [Server] below);
    - the [server.js] text that [src/setup.js] writes out, with the
      [connectedDevices] registry and the socket.io rooms ['control-room'] and
      ['arena-display'] (module [Setup] below).

    Every socket.io handler is embedded as a function from the state before the
    event to the state after it together with the messages the handler emits,
    in emission order. *)

From Stdlib Require Import List String Ascii ZArith Bool Lia.
From Stdlib Require Import Decimal DecimalString DecimalFacts DecimalNat.
Import ListNotations.
Open Scope string_scope.
Open Scope list_scope.

Set Implicit Arguments.
Set Warnings "-register-all".

(** ** Handler outcomes *)

(** A handler either runs to completion or throws (a [TypeError] on a
    property read of [undefined]/[null], or an argument check of a Node
    library).  Nothing in either server catches, so a throw ends the
    process: [Throw] carries no state. *)
Inductive result (A : Type) : Type :=
| Ok (a : A)
| Throw.

Arguments Throw {A}.

Definition bind {A B : Type} (r : result A) (k : A -> result B) : result B :=
  match r with
  | Ok a => k a
  | Throw => Throw
  end.

Notation "x <- e ;; k" := (bind e (fun x => k))
  (at level 61, e at next level, right associativity).

(** ** Insertion-ordered keyed collections

    A JS [Map] and a JS object both keep their keys in insertion order and
    overwrite in place; both are association lists here. *)
Section Keyed.
Variable A : Type.

Fixpoint assoc_get (k : string) (m : list (string * A)) : option A :=
  match m with
  | [] => None
  | (k', v) :: rest => if String.eqb k k' then Some v else assoc_get k rest
  end.

Fixpoint assoc_set (k : string) (v : A) (m : list (string * A)) : list (string * A) :=
  match m with
  | [] => [(k, v)]
  | (k', v') :: rest =>
      if String.eqb k k' then (k', v) :: rest else (k', v') :: assoc_set k v rest
  end.

Fixpoint assoc_del (k : string) (m : list (string * A)) : list (string * A) :=
  match m with
  | [] => []
  | (k', v') :: rest =>
      if String.eqb k k' then rest else (k', v') :: assoc_del k rest
  end.

Definition assoc_has (k : string) (m : list (string * A)) : bool :=
  match assoc_get k m with Some _ => true | None => false end.

Definition keys (m : list (string * A)) : list string := map fst m.
End Keyed.

(** ** JavaScript values carried by events *)
Module Js.

(** Event payloads are what socket.io decodes from the wire.  Numbers are
    restricted to integers; [NaN] and fractions are not modelled. *)
Inductive value : Type :=
| VUndefined
| VNull
| VBool (b : bool)
| VNum (n : Z)
| VStr (s : string)
| VArr (items : list value)
| VObj (fields : list (string * value)).

(** [if (v)], [v || d], [a && b]. *)
Definition truthy (v : value) : bool :=
  match v with
  | VUndefined | VNull => false
  | VBool b => b
  | VNum n => negb (n =? 0)%Z
  | VStr s => negb (String.eqb s "")
  | VArr _ | VObj _ => true
  end.

(** [a || b] *)
Definition or_else (a b : value) : value := if truthy a then a else b.

(** [s === v] for a string [s] (a socket id is always a string). *)
Definition strict_eq_str (s : string) (v : value) : bool :=
  match v with
  | VStr t => String.eqb s t
  | _ => false
  end.

(** [v.k] for the property names the handlers read off a payload ([name],
    [margins], [colors], [fileName], [fileData]): a read on [undefined] or
    [null] throws, a primitive or an array has none of them. *)
Definition get_prop (v : value) (k : string) : result value :=
  match v with
  | VUndefined | VNull => Throw
  | VObj f => Ok (match assoc_get k f with Some x => x | None => VUndefined end)
  | _ => Ok VUndefined
  end.

(** Same read on a value known to be an object. *)
Definition field (k : string) (f : list (string * value)) : value :=
  match assoc_get k f with Some x => x | None => VUndefined end.

(** Decimal rendering of a number inside a template literal. *)
Definition decimal (n : nat) : string := NilZero.string_of_uint (Nat.to_uint n).

Fixpoint chars (s : string) : list value :=
  match s with
  | EmptyString => []
  | String c rest => VStr (String c EmptyString) :: chars rest
  end.

Definition indexed (l : list value) : list (string * value) :=
  combine (map decimal (seq 0 (List.length l))) l.

(** The own enumerable properties that [{...v}] copies. *)
Definition own_props (v : value) : list (string * value) :=
  match v with
  | VObj f => f
  | VArr items => indexed items
  | VStr s => indexed (chars s)
  | _ => []
  end.

(** [{...acc, ...v}] continued from an object under construction.  Keys
    stay in the order they were first written; the engine's reordering of
    integer-like keys is not modelled. *)
Definition spread (acc : list (string * value)) (v : value) : list (string * value) :=
  fold_left (fun o kv => assoc_set (fst kv) (snd kv) o) (own_props v) acc.

(** A [Map] lookup with an arbitrary value as key: the maps of both
    servers are keyed by socket ids, so only a string can hit. *)
Definition map_get {A : Type} (k : value) (m : list (string * A)) : option A :=
  match k with
  | VStr s => assoc_get s m
  | _ => None
  end.

End Js.
Import Js.

(** ** Outbound messages and who receives them *)

Inductive audience : Type :=
| ToAll                    (* io.emit *)
| ToSocket (sid : string)  (* socket.emit *)
| ToOthers (sid : string)  (* socket.broadcast.emit *)
| ToRoom (room : string).  (* io.to(room).emit *)

Record message : Type := Msg {
  target : audience;
  event : string;
  payload : value
}.

(** socket.io's bookkeeping: the connected sockets and the rooms joined with
    [socket.join] (a socket is also in the room named by its own id). *)
Definition in_room (room sid : string) (rooms : list (string * string)) : bool :=
  String.eqb room sid ||
  existsb (fun rs => String.eqb room (fst rs) && String.eqb sid (snd rs)) rooms.

Definition recipients (sockets : list string) (rooms : list (string * string))
    (a : audience) : list string :=
  match a with
  | ToAll => sockets
  | ToSocket sid => filter (String.eqb sid) sockets
  | ToOthers sid => filter (fun x => negb (String.eqb sid x)) sockets
  | ToRoom room => filter (fun x => in_room room x rooms) sockets
  end.

Definition add_socket (sid : string) (sockets : list string) : list string :=
  if existsb (String.eqb sid) sockets then sockets else sockets ++ [sid].

Definition remove_socket (sid : string) (sockets : list string) : list string :=
  filter (fun x => negb (String.eqb sid x)) sockets.

(** The messages of [out] sent under the event name [ev]. *)
Definition emitted (ev : string) (out : list message) : list message :=
  filter (fun m => String.eqb ev (event m)) out.

(** [s.includes(c)] for a single character. *)
Fixpoint has_char (c : ascii) (s : string) : bool :=
  match s with
  | EmptyString => false
  | String x rest => Ascii.eqb x c || has_char c rest
  end.

(** ** Node's [path.join], POSIX flavour

    [src/server.js] builds the upload path with [path.join]; the function is
    Node's, not the repository's.  It is written out here after Node's
    [lib/path.js] ([posix.join], [posix.normalize], [normalizeString]):
    the non-empty arguments are glued with ['/'], then the segments are
    folded left to right, ['.'] and empty segments dropped and ['..']
    removing the segment before it. *)
Module Path.

(** [s.split(sep)] for a one-character separator. *)
Fixpoint split_on (sep : ascii) (s : string) : list string :=
  match s with
  | EmptyString => [""]
  | String c rest =>
      if Ascii.eqb c sep then "" :: split_on sep rest
      else match split_on sep rest with
           | [] => [String c ""]
           | seg :: segs => String c seg :: segs
           end
  end.

(** One segment of [normalizeString]; the stack has the last kept segment
    first. *)
Definition push_segment (allowAboveRoot : bool) (stack : list string)
    (seg : string) : list string :=
  if String.eqb seg "" || String.eqb seg "." then stack
  else if String.eqb seg ".." then
    match stack with
    | top :: below =>
        if String.eqb top ".."
        then (if allowAboveRoot then seg :: stack else stack)
        else below
    | [] => if allowAboveRoot then [seg] else []
    end
  else seg :: stack.

Definition segments (path : string) (allowAboveRoot : bool) : list string :=
  List.rev (fold_left (push_segment allowAboveRoot) (split_on "/" path) []).

Definition normalizeString (path : string) (allowAboveRoot : bool) : string :=
  String.concat "/" (segments path allowAboveRoot).

Definition isAbsolute (path : string) : bool :=
  match path with
  | String c _ => Ascii.eqb c "/"
  | EmptyString => false
  end.

Fixpoint trailingSeparator (path : string) : bool :=
  match path with
  | EmptyString => false
  | String c EmptyString => Ascii.eqb c "/"
  | String _ rest => trailingSeparator rest
  end.

Definition normalize (path : string) : string :=
  if String.eqb path "" then "."
  else
    let p := normalizeString path (negb (isAbsolute path)) in
    if String.eqb p "" then
      (if isAbsolute path then "/" else if trailingSeparator path then "./" else ".")
    else
      let p := if trailingSeparator path then (p ++ "/")%string else p in
      if isAbsolute path then ("/" ++ p)%string else p.

Definition join (args : list string) : string :=
  match filter (fun a => negb (String.eqb a "")) args with
  | [] => "."
  | parts => normalize (String.concat "/" parts)
  end.

(** Segments glued with a separator after each one. *)
Definition with_sep (segs : list string) : string :=
  String.concat "" (map (fun seg => (seg ++ "/")%string) segs).

(** What [normalize] keeps of a directory [dir] in front of anything joined
    below it: the leading ['/'] if any and the kept segments, each followed
    by ['/']. *)
Definition base (dir : string) : string :=
  ((if isAbsolute dir then "/" else "") ++
   with_sep (segments dir (negb (isAbsolute dir))))%string.

(** [p] is [dir] itself or lies below it. *)
Definition inside (dir p : string) : bool :=
  String.eqb p dir || String.prefix (dir ++ "/")%string p.

(** The directory that holds the entry a normalized path names: the path up
    to its last ['/'], which is ['/'] for an entry of the root and ['.'] for
    a bare name (what [posix.dirname] returns on such a path). *)
Definition parent (p : string) : string :=
  match List.rev (split_on "/" p) with
  | [] | [_] => "."
  | _ :: before =>
      let d := String.concat "/" (List.rev before) in
      if String.eqb d "" then "/" else d
  end.

(** The directories above [p], nearest first; the chain ends in ['/'] or
    ['.'], which a path with [n] segments reaches within [n] steps. *)
Fixpoint climb (n : nat) (p : string) : list string :=
  match n with
  | O => []
  | S n' => parent p :: climb n' (parent p)
  end.

Definition ancestors (p : string) : list string :=
  climb (List.length (split_on "/" p)) p.

End Path.

(** ** [src/server.js] *)
Module Server.

Record state : Type := State {
  streams : list (string * value);          (* const streams = new Map() *)
  activeLiveDevice : value;                 (* let activeLiveDevice = null *)
  displaySettings : list (string * value);  (* let displaySettings = {...} *)
  mobileSettings : list (string * value);   (* let mobileSettings = {...} *)
  fs_dirs : list string;                    (* directories on disk *)
  fs_files : list (string * string);        (* files on disk, content in base64 *)
  sockets : list string                     (* sockets socket.io holds connected *)
}.

Definition default_displaySettings : list (string * value) :=
  [("margins", VObj [("left", VNum 0); ("right", VNum 0); ("top", VNum 0); ("bottom", VNum 0)]);
   ("colors", VObj [("background", VStr "#000000"); ("font", VStr "#FFFFFF")])].

Definition default_mobileSettings : list (string * value) :=
  [("cameraFlip", VBool false); ("demoMode", VBool false); ("mainboardPopup", VBool false)].

(** The stores as the module declares them, no socket connected, on a disk
    with nothing on it; [set_fs] puts a disk under it. *)
Definition init : state :=
  {| streams := []; activeLiveDevice := VNull;
     displaySettings := default_displaySettings;
     mobileSettings := default_mobileSettings;
     fs_dirs := []; fs_files := []; sockets := [] |}.

Definition set_streams (m : list (string * value)) (s : state) : state :=
  {| streams := m; activeLiveDevice := activeLiveDevice s;
     displaySettings := displaySettings s; mobileSettings := mobileSettings s;
     fs_dirs := fs_dirs s; fs_files := fs_files s; sockets := sockets s |}.

Definition set_activeLiveDevice (v : value) (s : state) : state :=
  {| streams := streams s; activeLiveDevice := v;
     displaySettings := displaySettings s; mobileSettings := mobileSettings s;
     fs_dirs := fs_dirs s; fs_files := fs_files s; sockets := sockets s |}.

Definition set_displaySettings (d : list (string * value)) (s : state) : state :=
  {| streams := streams s; activeLiveDevice := activeLiveDevice s;
     displaySettings := d; mobileSettings := mobileSettings s;
     fs_dirs := fs_dirs s; fs_files := fs_files s; sockets := sockets s |}.

Definition set_mobileSettings (m : list (string * value)) (s : state) : state :=
  {| streams := streams s; activeLiveDevice := activeLiveDevice s;
     displaySettings := displaySettings s; mobileSettings := m;
     fs_dirs := fs_dirs s; fs_files := fs_files s; sockets := sockets s |}.

Definition set_fs (dirs : list string) (files : list (string * string)) (s : state) : state :=
  {| streams := streams s; activeLiveDevice := activeLiveDevice s;
     displaySettings := displaySettings s; mobileSettings := mobileSettings s;
     fs_dirs := dirs; fs_files := files; sockets := sockets s |}.

Definition set_sockets (l : list string) (s : state) : state :=
  {| streams := streams s; activeLiveDevice := activeLiveDevice s;
     displaySettings := displaySettings s; mobileSettings := mobileSettings s;
     fs_dirs := fs_dirs s; fs_files := fs_files s; sockets := l |}.

(** The object literal [{ display: displaySettings, mobile: mobileSettings }]. *)
Definition settings_snapshot (s : state) : value :=
  VObj [("display", VObj (displaySettings s)); ("mobile", VObj (mobileSettings s))].

(** [io.on('connection', ...)]: socket.io has added the socket; the handler
    sends the settings to it. *)
Definition connection (s : state) (sid : string) : result (state * list message) :=
  Ok (set_sockets (add_socket sid (sockets s)) s,
      [Msg (ToSocket sid) "initial-settings" (settings_snapshot s)]).

Definition register_mobile_device (s : state) (sid : string) (data : value)
    : result (state * list message) :=
  name <- get_prop data "name" ;;
  Ok (s, [Msg ToAll "device-connected" (VObj [("id", VStr sid); ("name", name)]);
          Msg (ToSocket sid) "mobile-settings-updated" (VObj (mobileSettings s))]).

Definition camera_stream (s : state) (sid : string) (data : value)
    : result (state * list message) :=
  Ok (set_streams (assoc_set sid data (streams s)) s,
      Msg ToAll "preview-update" (VObj [("id", VStr sid); ("stream", data)])
      :: (if strict_eq_str sid (activeLiveDevice s)
          then [Msg ToAll "arena-update" (VObj [("stream", data)])]
          else [])).

(** [streams.get(deviceId)]: [undefined] when there is no entry. *)
Definition stored_stream (s : state) (deviceId : value) : value :=
  match map_get deviceId (streams s) with
  | Some stream => stream
  | None => VUndefined
  end.

(** [if (stream)]: a frame is on record for [deviceId]. *)
Definition has_preview (s : state) (deviceId : value) : bool :=
  truthy (stored_stream s deviceId).

Definition go_live (s : state) (sid : string) (deviceId : value)
    : result (state * list message) :=
  let stream := stored_stream s deviceId in
  Ok (set_activeLiveDevice deviceId s,
      (if truthy stream
       then [Msg ToAll "arena-update" (VObj [("stream", stream)])]
       else [])
      ++ [Msg ToAll "live-device-changed" deviceId]).

Definition update_sponsors (s : state) (sid : string) (sponsors : value)
    : result (state * list message) :=
  Ok (s, [Msg (ToOthers sid) "update-sponsors" sponsors]).

Definition update_display_settings (s : state) (sid : string) (settings : value)
    : result (state * list message) :=
  margins <- get_prop settings "margins" ;;
  let d1 := if truthy margins
            then assoc_set "margins" margins (displaySettings s)
            else displaySettings s in
  colors <- get_prop settings "colors" ;;
  let d2 := if truthy colors then assoc_set "colors" colors d1 else d1 in
  Ok (set_displaySettings d2 s,
      [Msg (ToOthers sid) "display-settings-updated" settings]).

Definition update_mobile_settings (s : state) (sid : string) (settings : value)
    : result (state * list message) :=
  Ok (set_mobileSettings (spread (spread [] (VObj (mobileSettings s))) settings) s,
      [Msg (ToOthers sid) "mobile-settings-updated" settings]).

(** *** The file system under the handlers

    [fs_dirs] lists the directories on disk and [fs_files] the regular
    files; the root and the working directory are always there.  The three
    [fs] calls of [upload-sponsor] follow Node on a POSIX system:
    - [fs.existsSync(p)] answers whether anything is at [p];
    - [fs.mkdirSync(p, { recursive: true })] makes [p] and every missing
      directory above it, and throws (ENOTDIR) when one of them is a regular
      file;
    - [fs.writeFileSync(p, data)] creates or replaces the file at [p]; it
      throws when [p] holds a NUL character (ERR_INVALID_ARG_VALUE), ends in
      a separator or names a directory (EISDIR), and when the directory that
      should hold it is missing or is a regular file (ENOENT, ENOTDIR).
    Permissions, quotas and the platform's limits on name length are outside
    the model. *)
Definition is_directory (dirs : list string) (p : string) : bool :=
  String.eqb p "/" || String.eqb p "." || existsb (String.eqb p) dirs.

Definition existsSync (s : state) (p : string) : bool :=
  is_directory (fs_dirs s) p || assoc_has p (fs_files s).

Definition add_dir (dirs : list string) (p : string) : list string :=
  if is_directory dirs p then dirs else dirs ++ [p].

Definition mkdirSync_recursive (s : state) (p : string) : result (list string) :=
  if has_char "000" p then Throw
  else if existsb (fun a => assoc_has a (fs_files s)) (p :: Path.ancestors p) then Throw
  else Ok (fold_left add_dir (List.rev (p :: Path.ancestors p)) (fs_dirs s)).

Definition writeFileSync (dirs : list string) (files : list (string * string))
    (p data : string) : result (list (string * string)) :=
  if has_char "000" p || Path.trailingSeparator p || is_directory dirs p then Throw
  else if is_directory dirs (Path.parent p) then Ok (assoc_set p data files)
  else Throw.

Section Upload.
(** [__dirname], the directory [server.js] runs from. *)
Variable dirname : string.

Definition uploads_dir : string := Path.join [dirname; "public"; "uploads"].

(** Where [upload-sponsor] writes for a given [fileName]. *)
Definition upload_path (fileName : string) : string :=
  Path.join [dirname; "public"; "uploads"; fileName].

(** [if (!fs.existsSync(uploads)) fs.mkdirSync(uploads, { recursive: true })]:
    the directories on disk afterwards. *)
Definition ensure_uploads_dir (s : state) : result (list string) :=
  if existsSync s uploads_dir then Ok (fs_dirs s)
  else mkdirSync_recursive s uploads_dir.

(** [path.join] throws on an argument that is not a string, [fileData.split]
    on anything but a string, and [Buffer.from(undefined, 'base64')] when
    [fileData] holds no comma; [fs.mkdirSync] and [fs.writeFileSync] throw as
    described above.  Nothing in the handler catches, so any of these ends
    the run before the reply is sent.  The file content is kept as the
    base64 text that [Buffer.from] decodes. *)
Definition upload_sponsor (s : state) (sid : string) (data : value)
    : result (state * list message) :=
  fileName <- get_prop data "fileName" ;;
  fileData <- get_prop data "fileData" ;;
  match fileName, fileData with
  | VStr fn, VStr fd =>
      let filePath := upload_path fn in
      dirs <- ensure_uploads_dir s ;;
      match nth_error (Path.split_on "," fd) 1 with
      | Some b64 =>
          files <- writeFileSync dirs (fs_files s) filePath b64 ;;
          Ok (set_fs dirs files s,
              [Msg (ToSocket sid) "sponsor-uploaded"
                   (VObj [("url", VStr ("/uploads/" ++ fn)%string)])])
      | None => Throw
      end
  | _, _ => Throw
  end.
End Upload.

(** [socket.on('disconnect', ...)]: socket.io has already dropped the socket
    when the handler runs. *)
Definition disconnect (s : state) (sid : string) : result (state * list message) :=
  let s1 := set_sockets (remove_socket sid (sockets s)) s in
  let s2 := set_streams (assoc_del sid (streams s1)) s1 in
  if strict_eq_str sid (activeLiveDevice s2)
  then Ok (set_activeLiveDevice VNull s2, [Msg ToAll "live-device-changed" VNull])
  else Ok (s2, []).

Inductive event : Type :=
| Connection (sid : string)
| RegisterMobileDevice (sid : string) (data : value)
| CameraStream (sid : string) (data : value)
| GoLive (sid : string) (deviceId : value)
| UpdateSponsors (sid : string) (sponsors : value)
| UpdateDisplaySettings (sid : string) (settings : value)
| UpdateMobileSettings (sid : string) (settings : value)
| UploadSponsor (sid : string) (data : value)
| Disconnect (sid : string).

Definition step (dirname : string) (s : state) (e : event) : result (state * list message) :=
  match e with
  | Connection sid => connection s sid
  | RegisterMobileDevice sid data => register_mobile_device s sid data
  | CameraStream sid data => camera_stream s sid data
  | GoLive sid deviceId => go_live s sid deviceId
  | UpdateSponsors sid sponsors => update_sponsors s sid sponsors
  | UpdateDisplaySettings sid settings => update_display_settings s sid settings
  | UpdateMobileSettings sid settings => update_mobile_settings s sid settings
  | UploadSponsor sid data => upload_sponsor dirname s sid data
  | Disconnect sid => disconnect s sid
  end.

(** Events are handled one at a time, each to completion. *)
Fixpoint run (dirname : string) (s : state) (es : list event) : result (state * list message) :=
  match es with
  | [] => Ok (s, [])
  | e :: rest =>
      r1 <- step dirname s e ;;
      r2 <- run dirname (fst r1) rest ;;
      Ok (fst r2, snd r1 ++ snd r2)
  end.


(** [v.a.b...]: a chain of property reads. *)
Fixpoint read_path (path : list string) (v : value) : result value :=
  match path with
  | [] => Ok v
  | k :: rest => x <- get_prop v k ;; read_path rest x
  end.

(** The two partial updates of the spec's merge example. *)
Definition partial_colors : value :=
  VObj [("colors", VObj [("background", VStr "#111")])].

Definition partial_margins : value :=
  VObj [("margins", VObj [("left", VNum 5)])].

(** The leaves of [displaySettings] that neither partial names. *)
Definition unspecified_display_paths : list (list string) :=
  [["margins"; "right"]; ["margins"; "top"]; ["margins"; "bottom"]; ["colors"; "font"]].

(** The outcome the spec's merge example asks of a display store [d]: both
    new values present and every leaf named by neither partial as in the
    defaults. *)
Definition spec_merge_outcome (d : list (string * value)) : Prop :=
  read_path ["colors"; "background"] (VObj d) = Ok (VStr "#111") /\
  read_path ["margins"; "left"] (VObj d) = Ok (VNum 5) /\
  forall path, In path unspecified_display_paths ->
    read_path path (VObj d) = read_path path (VObj default_displaySettings).

(** [current()] of the spec's live-selection state. *)
Definition current (s : state) : value := activeLiveDevice s.

Definition recipients_of (s : state) (m : message) : list string :=
  recipients (sockets s) [] (target m).

(** The socket an event arrives on. *)
Definition sender (e : event) : string :=
  match e with
  | Connection sid | RegisterMobileDevice sid _ | CameraStream sid _
  | GoLive sid _ | UpdateSponsors sid _ | UpdateDisplaySettings sid _
  | UpdateMobileSettings sid _ | UploadSponsor sid _ | Disconnect sid => sid
  end.

(** What socket.io can deliver in state [s]: ['connection'] for a socket it
    does not hold yet, any other event on a socket it holds. *)
Definition deliverable (s : state) (e : event) : bool :=
  match e with
  | Connection sid => negb (existsb (String.eqb sid) (sockets s))
  | _ => existsb (String.eqb (sender e)) (sockets s)
  end.

(** The states the running server goes through: it starts with its stores
    as declared, on whatever disk it was deployed on. *)
Inductive served (dirname : string) : state -> Prop :=
| served_init (dirs : list string) (files : list (string * string)) :
    served dirname (set_fs dirs files init)
| served_step (s : state) (e : event) (s' : state) (out : list message) :
    served dirname s -> deliverable s e = true ->
    step dirname s e = Ok (s', out) -> served dirname s'.

(** [app.get('/api/settings', ...)]: the body of the JSON response. *)
Definition api_settings (s : state) : value :=
  VObj [("display", VObj (displaySettings s)); ("mobile", VObj (mobileSettings s))].

(** The shape of the store that [initial-settings] and [GET /api/settings]
    hand out. *)
Definition settings_well_shaped (s : state) : Prop :=
  (exists margins colors,
      displaySettings s = [("margins", margins); ("colors", colors)] /\
      truthy margins = true /\ truthy colors = true) /\
  incl (keys default_mobileSettings) (keys (mobileSettings s)).

(** The frames on record belong to connected sockets, one per socket. *)
Definition streams_of_connected (s : state) : Prop :=
  NoDup (keys (streams s)) /\ forall k, In k (keys (streams s)) -> In k (sockets s).

(** An event that can move the live selection away from socket [live]:
    any [go-live], and the disconnect of [live] itself. *)
Definition moves_live (live : value) (e : event) : bool :=
  match e with
  | GoLive _ _ => true
  | Disconnect sid => strict_eq_str sid live
  | _ => false
  end.

End Server.

(** ** The [server.js] that [src/setup.js] writes out *)
Module Setup.

(** An entry of [connectedDevices]: [{ type, name, preview }]. *)
Record device : Type := Device {
  type : string;
  name : value;
  preview : value
}.

Record state : Type := State {
  connectedDevices : list (string * device);  (* const connectedDevices = new Map() *)
  sockets : list string;                      (* sockets socket.io holds connected *)
  rooms : list (string * string)              (* (room, socket id) from socket.join *)
}.

Definition init : state :=
  {| connectedDevices := []; sockets := []; rooms := [] |}.

Definition set_connectedDevices (m : list (string * device)) (s : state) : state :=
  {| connectedDevices := m; sockets := sockets s; rooms := rooms s |}.

Definition set_sockets (l : list string) (s : state) : state :=
  {| connectedDevices := connectedDevices s; sockets := l; rooms := rooms s |}.

Definition set_rooms (r : list (string * string)) (s : state) : state :=
  {| connectedDevices := connectedDevices s; sockets := sockets s; rooms := r |}.

(** [socket.join(room)] *)
Definition join (room sid : string) (s : state) : state :=
  if existsb (fun rs => String.eqb room (fst rs) && String.eqb sid (snd rs)) (rooms s)
  then s
  else set_rooms (rooms s ++ [(room, sid)]) s.

(** [connectedDevices.size] *)
Definition size (s : state) : nat := List.length (connectedDevices s).

(** One element of the [deviceList] array: [{ id, preview, type, name }]. *)
Definition device_summary (entry : string * device) : value :=
  VObj [("id", VStr (fst entry));
        ("preview", preview (snd entry));
        ("type", VStr (type (snd entry)));
        ("name", name (snd entry))].

(** [Array.from(connectedDevices.entries()).map(...)]; the spec's [list()]. *)
Definition deviceList (s : state) : list value :=
  map device_summary (connectedDevices s).

Definition connection (s : state) (sid : string) : result (state * list message) :=
  Ok (set_sockets (add_socket sid (sockets s)) s, []).

Definition control_room_connected (s : state) (sid : string)
    : result (state * list message) :=
  let s1 := join "control-room" sid s in
  Ok (s1, [Msg (ToSocket sid) "device-list-update" (VArr (deviceList s1))]).

Definition arena_display_connected (s : state) (sid : string)
    : result (state * list message) :=
  Ok (join "arena-display" sid s, []).

(** The template literal [`Phone ${n}`]. *)
Definition phone_label (n : nat) : value := VStr ("Phone " ++ decimal n)%string.

Definition register_mobile_device (s : state) (sid : string) (deviceInfo : value)
    : result (state * list message) :=
  stored <- get_prop deviceInfo "name" ;;
  let s1 := set_connectedDevices
              (assoc_set sid
                 {| type := "mobile";
                    name := or_else stored (phone_label (size s + 1));
                    preview := VNull |}
                 (connectedDevices s)) s in
  announced <- get_prop deviceInfo "name" ;;
  Ok (s1, [Msg (ToRoom "control-room") "device-connected"
               (VObj [("id", VStr sid);
                      ("type", VStr "mobile");
                      ("name", or_else announced (phone_label (size s1)))])]).

(** [io.to(socket.id).emit('start-preview')], sent without arguments. *)
Definition camera_access_approved (s : state) (sid : string)
    : result (state * list message) :=
  Ok (s, [Msg (ToRoom sid) "start-preview" VUndefined]).

Definition preview_update (s : state) (sid : string) (imageData : value)
    : result (state * list message) :=
  match assoc_get sid (connectedDevices s) with
  | Some dev =>
      Ok (set_connectedDevices
            (assoc_set sid
               {| type := type dev; name := name dev; preview := imageData |}
               (connectedDevices s)) s,
          [Msg (ToRoom "control-room") "preview-update"
               (VObj [("deviceId", VStr sid); ("preview", imageData)])])
  | None => Ok (s, [])
  end.

(** [device && device.preview] *)
Definition has_preview (s : state) (deviceId : value) : bool :=
  match map_get deviceId (connectedDevices s) with
  | Some dev => truthy (preview dev)
  | None => false
  end.

Definition go_live (s : state) (sid : string) (deviceId : value)
    : result (state * list message) :=
  match map_get deviceId (connectedDevices s) with
  | Some dev =>
      if truthy (preview dev)
      then Ok (s, [Msg (ToRoom "arena-display") "arena-display-update"
                       (VObj [("content", preview dev);
                              ("overlay",
                               VObj [("sponsorLogo", VStr "/images/dodge-ram-logo.png");
                                     ("eventTitle", VStr "RENO RODEO")])]);
                   Msg ToAll "device-is-live" deviceId])
      else Ok (s, [])
  | None => Ok (s, [])
  end.

(** [socket.on('disconnect', ...)]: socket.io has already dropped the socket
    and emptied its rooms when the handler runs. *)
Definition disconnect (s : state) (sid : string) : result (state * list message) :=
  let s1 := set_rooms (filter (fun rs => negb (String.eqb sid (snd rs))) (rooms s))
              (set_sockets (remove_socket sid (sockets s)) s) in
  if assoc_has sid (connectedDevices s1)
  then Ok (set_connectedDevices (assoc_del sid (connectedDevices s1)) s1,
           [Msg (ToRoom "control-room") "device-disconnected" (VStr sid)])
  else Ok (s1, []).

Inductive event : Type :=
| Connection (sid : string)
| ControlRoomConnected (sid : string)
| ArenaDisplayConnected (sid : string)
| RegisterMobileDevice (sid : string) (deviceInfo : value)
| CameraAccessApproved (sid : string)
| PreviewUpdate (sid : string) (imageData : value)
| GoLive (sid : string) (deviceId : value)
| Disconnect (sid : string).

(** The socket an event arrives on. *)
Definition sender (e : event) : string :=
  match e with
  | Connection sid | ControlRoomConnected sid | ArenaDisplayConnected sid
  | RegisterMobileDevice sid _ | CameraAccessApproved sid | PreviewUpdate sid _
  | GoLive sid _ | Disconnect sid => sid
  end.

Definition step (s : state) (e : event) : result (state * list message) :=
  match e with
  | Connection sid => connection s sid
  | ControlRoomConnected sid => control_room_connected s sid
  | ArenaDisplayConnected sid => arena_display_connected s sid
  | RegisterMobileDevice sid deviceInfo => register_mobile_device s sid deviceInfo
  | CameraAccessApproved sid => camera_access_approved s sid
  | PreviewUpdate sid imageData => preview_update s sid imageData
  | GoLive sid deviceId => go_live s sid deviceId
  | Disconnect sid => disconnect s sid
  end.

(** Events are handled one at a time, each to completion. *)
Fixpoint run (s : state) (es : list event) : result (state * list message) :=
  match es with
  | [] => Ok (s, [])
  | e :: rest =>
      r1 <- step s e ;;
      r2 <- run (fst r1) rest ;;
      Ok (fst r2, snd r1 ++ snd r2)
  end.

Definition recipients_of (s : state) (m : message) : list string :=
  recipients (sockets s) (rooms s) (target m).

(** The states the server can be in: those some sequence of events leads to. *)
Inductive reachable : state -> Prop :=
| reachable_init : reachable init
| reachable_step (s : state) (e : event) (s' : state) (out : list message) :
    reachable s -> step s e = Ok (s', out) -> reachable s'.

(** The [id] of every element of the device list. *)
Definition listed_ids (s : state) : list value :=
  map (fun v => match get_prop v "id" with Ok i => i | Throw => VUndefined end)
      (deviceList s).

(** The client of [public/js/mobile.js]: the name it registers with is
    [userName.value.trim() || 'Anonymous'], given the trimmed input. *)
Definition mobile_client_name (trimmed : string) : value :=
  or_else (VStr trimmed) (VStr "Anonymous").

(** What socket.io can deliver in state [s]: ['connection'] for a socket it
    does not hold yet, any other event on a socket it holds. *)
Definition deliverable (s : state) (e : event) : bool :=
  match e with
  | Connection sid => negb (existsb (String.eqb sid) (sockets s))
  | _ => existsb (String.eqb (sender e)) (sockets s)
  end.

(** The states the running server goes through. *)
Inductive served : state -> Prop :=
| served_init : served init
| served_step (s : state) (e : event) (s' : state) (out : list message) :
    served s -> deliverable s e = true -> step s e = Ok (s', out) -> served s'.

(** Registry entries and room memberships belong to connected sockets, and a
    socket has at most one registry entry. *)
Definition registry_of_connected (s : state) : Prop :=
  NoDup (keys (connectedDevices s)) /\
  (forall k, In k (keys (connectedDevices s)) -> In k (sockets s)) /\
  (forall room k, In (room, k) (rooms s) -> In k (sockets s)).


(** The payload of the [arena-display-update] that [go-live] sends for a
    stored preview. *)
Definition arena_frame (content : value) : value :=
  VObj [("content", content);
        ("overlay",
         VObj [("sponsorLogo", VStr "/images/dodge-ram-logo.png");
               ("eventTitle", VStr "RENO RODEO")])].

End Setup.

(** ** The pages written out by [src/setup.js]

    The three client scripts keep their state in the page.  Each is modelled
    by the part of the page it reads and writes, and by its message handlers.
    The ids the server puts in its messages are socket ids, strings. *)

(** *** [public/js/control-room.js] *)
Module ControlRoom.

(** A preview card, the [div#preview-<device>] that [addDevicePreview]
    builds: its image source, its name text and whether it carries the class
    ['live']. *)
Record card : Type := Card {
  device : string;
  image : value;
  label : value;
  live : bool
}.

Record page : Type := Page {
  cards : list card;                  (* previewGrid.children, in order *)
  deviceCount : Z;                    (* the number shown in span#device-count *)
  currentLiveDevice : option string   (* let currentLiveDevice = null *)
}.

(** The page as [control-room.html] loads. *)
Definition init : page :=
  {| cards := []; deviceCount := 0; currentLiveDevice := None |}.

Definition set_cards (l : list card) (p : page) : page :=
  {| cards := l; deviceCount := deviceCount p; currentLiveDevice := currentLiveDevice p |}.

(** [`preview-${deviceId}`] is also the id of the grid itself,
    [div#preview-grid], when [deviceId] is ["grid"]. *)
Definition addresses_grid (deviceId : string) : bool := String.eqb deviceId "grid".

(** [document.getElementById(`preview-${deviceId}`)] finds a card. *)
Definition has_card (deviceId : string) (p : page) : bool :=
  existsb (fun c => String.eqb deviceId (device c)) (cards p).

Definition updateDeviceCount (count : Z) (p : page) : page :=
  {| cards := cards p; deviceCount := count; currentLiveDevice := currentLiveDevice p |}.

Definition addDevicePreview (deviceId : string) (deviceName initialPreview : value)
    (p : page) : page :=
  if addresses_grid deviceId || has_card deviceId p then p
  else
    set_cards
      (cards p ++
       [{| device := deviceId;
           image := if truthy initialPreview then initialPreview
                    else VStr "/images/waiting-for-preview.png";
           label := or_else deviceName (VStr "Unknown Device");
           live := false |}])
      p.

(** Changes the first card of [deviceId], the one [getElementById] returns. *)
Fixpoint update_card (deviceId : string) (f : card -> card) (l : list card) : list card :=
  match l with
  | [] => []
  | c :: rest =>
      if String.eqb deviceId (device c) then f c :: rest
      else c :: update_card deviceId f rest
  end.

(** [deviceElement.remove()] *)
Fixpoint remove_card (deviceId : string) (l : list card) : list card :=
  match l with
  | [] => []
  | c :: rest =>
      if String.eqb deviceId (device c) then rest
      else c :: remove_card deviceId rest
  end.

Definition updateDevicePreview (deviceId : string) (preview : value) (p : page) : page :=
  if truthy preview
  then set_cards
         (update_card deviceId
            (fun c => {| device := device c; image := preview;
                         label := label c; live := live c |})
            (cards p)) p
  else p.

Definition set_live (b : bool) (c : card) : card :=
  {| device := device c; image := image c; label := label c; live := b |}.

(** [None] where the script would change the class of the grid itself. *)
Definition updateLiveStatus (deviceId : string) (p : page) : option page :=
  let cleared :=
    match currentLiveDevice p with
    | Some previous =>
        if String.eqb previous "" then Some (cards p)
        else if addresses_grid previous then None
        else Some (update_card previous (set_live false) (cards p))
    | None => Some (cards p)
    end in
  match cleared with
  | Some l =>
      if addresses_grid deviceId then None
      else Some {| cards := update_card deviceId (set_live true) l;
                   deviceCount := deviceCount p;
                   currentLiveDevice := Some deviceId |}
  | None => None
  end.

(** A device as the server describes it: [id], [name], [preview]. *)
Record info : Type := Info {
  id : string;
  name : value;
  preview : value
}.

(** Reads an element of a [device-list-update] array. *)
Definition decode (v : value) : option info :=
  match get_prop v "id", get_prop v "name", get_prop v "preview" with
  | Ok (VStr i), Ok n, Ok pv => Some {| id := i; name := n; preview := pv |}
  | _, _, _ => None
  end.

Inductive incoming : Type :=
| DeviceListUpdate (devices : list info)
| DeviceConnected (deviceId : string) (deviceName : value)
| DeviceDisconnected (deviceId : string)
| PreviewUpdate (deviceId : string) (preview : value)
| DeviceIsLive (deviceId : string).

(** The [socket.on] handlers.  [None] where a handler would remove or
    restyle the grid itself (the id ["grid"]). *)
Definition handle (p : page) (m : incoming) : option page :=
  match m with
  | DeviceListUpdate devices =>
      Some (fold_left (fun q d => addDevicePreview (id d) (name d) (preview d) q)
              devices
              (updateDeviceCount (Z.of_nat (List.length devices)) p))
  | DeviceConnected deviceId deviceName =>
      Some (addDevicePreview deviceId deviceName VNull
              (updateDeviceCount (Z.of_nat (List.length (cards p)) + 1) p))
  | DeviceDisconnected deviceId =>
      if addresses_grid deviceId then None
      else if has_card deviceId p
      then let rest := remove_card deviceId (cards p) in
           Some (updateDeviceCount (Z.of_nat (List.length rest) - 1) (set_cards rest p))
      else Some p
  | PreviewUpdate deviceId preview => Some (updateDevicePreview deviceId preview p)
  | DeviceIsLive deviceId => updateLiveStatus deviceId p
  end.

Fixpoint handle_all (p : page) (ms : list incoming) : option page :=
  match ms with
  | [] => Some p
  | m :: rest =>
      match handle p m with
      | Some p' => handle_all p' rest
      | None => None
      end
  end.

(** The device ids a message names. *)
Definition named_ids (m : incoming) : list string :=
  match m with
  | DeviceListUpdate devices => map id devices
  | DeviceConnected deviceId _ | DeviceDisconnected deviceId
  | PreviewUpdate deviceId _ | DeviceIsLive deviceId => [deviceId]
  end.

(** The cards that carry the class ['live']. *)
Definition live_cards (p : page) : list card := filter live (cards p).

(** The devices that have a card, in grid order. *)
Definition shown (p : page) : list string := map device (cards p).

(** Cards are one per device, and none is for ["grid"]. *)
Definition cards_unique (p : page) : Prop :=
  NoDup (shown p) /\ ~ In "grid"%string (shown p).

(** Only the card of [currentLiveDevice] can be marked live, and
    [currentLiveDevice] is never the empty string. *)
Definition live_marks_current (p : page) : Prop :=
  NoDup (shown p) /\
  (forall c, In c (cards p) -> live c = true -> currentLiveDevice p = Some (device c)) /\
  currentLiveDevice p <> Some ""%string.

(** The card [addDevicePreview] builds for a device of a
    [device-list-update]. *)
Definition to_card (d : info) : card :=
  {| device := id d;
     image := if truthy (preview d) then preview d
              else VStr "/images/waiting-for-preview.png";
     label := or_else (name d) (VStr "Unknown Device");
     live := false |}.

End ControlRoom.

(** *** [public/js/arena-display.js] *)
Module ArenaDisplay.

Record page : Type := Page {
  content : option value;  (* the src of the img in div#content-area, if any *)
  logo : value;            (* logoImg.src *)
  title : value            (* eventTitle.textContent *)
}.

(** The page once the script has run: empty content area, the logo it
    inserts, the title of [arena-display.html]. *)
Definition init : page :=
  {| content := None; logo := VStr "/images/dodge-ram-logo.png"; title := VStr "RENO RODEO" |}.

(** [socket.on('arena-display-update', ...)].  The content area is emptied
    first; a read that throws ([data] is [null]) leaves the page as it is by
    then. *)
Definition on_arena_display_update (data : value) (p : page) : page :=
  let emptied := {| content := None; logo := logo p; title := title p |} in
  match get_prop data "content", get_prop data "overlay" with
  | Ok c, Ok overlay =>
      let shown := if truthy c then Some c else None in
      if truthy overlay then
        let sponsorLogo :=
          match get_prop overlay "sponsorLogo" with Ok v => v | Throw => VUndefined end in
        let eventTitle :=
          match get_prop overlay "eventTitle" with Ok v => v | Throw => VUndefined end in
        {| content := shown;
           logo := if truthy sponsorLogo then sponsorLogo else logo p;
           title := if truthy eventTitle then eventTitle else title p |}
      else {| content := shown; logo := logo p; title := title p |}
  | _, _ => emptied
  end.

End ArenaDisplay.

(** *** [public/js/mobile.js] *)
Module Mobile.

(** [socket.on('device-is-live', ...)]: whether [div#live-indicator] carries
    the class ['hidden'] afterwards, on the page of socket [socket_id]. *)
Definition indicator_hidden (socket_id : string) (deviceId : value) : bool :=
  negb (strict_eq_str socket_id deviceId).

End Mobile.

(** * Properties *)

(** ** Keyed collections *)
Section KeyedFacts.
Variable A : Type.
Implicit Types (m : list (string * A)) (k : string) (v : A).

Lemma assoc_get_set_same k v m : assoc_get k (assoc_set k v m) = Some v.
Proof.
  induction m as [|[k' v'] rest IH]; simpl.
  - now rewrite String.eqb_refl.
  - destruct (String.eqb k k') eqn:E; simpl; rewrite E; auto.
Qed.

Lemma assoc_get_set_other k k' v m :
  k <> k' -> assoc_get k (assoc_set k' v m) = assoc_get k m.
Proof.
  intros Hne. induction m as [|[k0 v0] rest IH]; simpl.
  - destruct (String.eqb_spec k k'); congruence.
  - destruct (String.eqb_spec k' k0) as [->|Hk]; simpl.
    + destruct (String.eqb_spec k k0); congruence.
    + now rewrite IH.
Qed.

Lemma assoc_get_In k m : assoc_get k m <> None <-> In k (keys m).
Proof.
  induction m as [|[k' v'] rest IH]; simpl.
  - split; [congruence | tauto].
  - destruct (String.eqb_spec k k') as [->|Hne].
    + split; [auto | congruence].
    + rewrite IH. split; [auto | intros [E|H]; congruence].
Qed.

Lemma assoc_get_None k m : assoc_get k m = None <-> ~ In k (keys m).
Proof.
  rewrite <- assoc_get_In. destruct (assoc_get k m); split; try congruence.
  intros H. exfalso. apply H. congruence.
Qed.

Lemma keys_set_present k v m :
  assoc_has k m = true -> keys (assoc_set k v m) = keys m.
Proof.
  unfold assoc_has. induction m as [|[k' v'] rest IH]; simpl; [congruence|].
  destruct (String.eqb k k') eqn:E; simpl; intros H; [reflexivity|].
  now rewrite IH.
Qed.

Lemma keys_set_absent k v m :
  assoc_get k m = None -> keys (assoc_set k v m) = keys m ++ [k].
Proof.
  induction m as [|[k' v'] rest IH]; simpl; [reflexivity|].
  destruct (String.eqb k k') eqn:E; simpl; intros H; [congruence|].
  now rewrite IH.
Qed.

Lemma assoc_set_twice k v w m :
  assoc_set k v (assoc_set k w m) = assoc_set k v m.
Proof.
  induction m as [|[k' v'] rest IH]; simpl.
  - now rewrite String.eqb_refl.
  - destruct (String.eqb k k') eqn:E; simpl; rewrite E; [reflexivity|].
    now rewrite IH.
Qed.

Lemma keys_del_incl k m : incl (keys (assoc_del k m)) (keys m).
Proof.
  induction m as [|[k' v'] rest IH]; simpl; [apply incl_refl|].
  destruct (String.eqb k k').
  - apply incl_tl, incl_refl.
  - apply incl_cons; [now left | now apply incl_tl].
Qed.

Lemma NoDup_keys_set k v m : NoDup (keys m) -> NoDup (keys (assoc_set k v m)).
Proof.
  intros H. destruct (assoc_get k m) eqn:E.
  - rewrite keys_set_present; [assumption|]. unfold assoc_has. now rewrite E.
  - rewrite keys_set_absent by assumption.
    apply NoDup_app; [assumption | repeat constructor; auto |].
    intros x Hx [<-|[]]. now apply assoc_get_None in E.
Qed.

Lemma NoDup_keys_del k m : NoDup (keys m) -> NoDup (keys (assoc_del k m)).
Proof.
  induction m as [|[k' v'] rest IH]; simpl; [auto|].
  intros H. inversion H as [|? ? Hnin Hnd]; subst.
  destruct (String.eqb k k'); [assumption|].
  simpl. constructor; [|auto].
  intros Hin. apply Hnin. now apply keys_del_incl in Hin.
Qed.

Lemma keys_del_same k m : NoDup (keys m) -> ~ In k (keys (assoc_del k m)).
Proof.
  induction m as [|[k' v'] rest IH]; simpl; [auto|].
  intros H. inversion H as [|? ? Hnin Hnd]; subst.
  destruct (String.eqb_spec k k') as [->|Hne]; [assumption|].
  simpl. intros [E|Hin]; [congruence | now apply IH].
Qed.

End KeyedFacts.

(** ** Values and recipients *)


Lemma decimal_inj (n m : nat) : decimal n = decimal m -> n = m.
Proof.
  assert (forall k, Nat.to_uint k <> Nil) as Hnil.
  { intros k H. pose proof (DecimalFacts.unorm_nonnil (Nat.to_uint k)) as Hk.
    rewrite <- DecimalNat.Unsigned.to_of, DecimalNat.Unsigned.of_to in Hk. auto. }
  unfold decimal. intros E. apply (f_equal NilZero.uint_of_string) in E.
  rewrite !NilZero.usu in E by apply Hnil.
  injection E as E. now apply DecimalNat.Unsigned.to_uint_inj.
Qed.


Lemma recipients_ToSocket (sid r : string) (l : list string) (rooms : list (string * string)) :
  In sid l -> In r (recipients l rooms (ToSocket sid)) <-> r = sid.
Proof.
  intros Hin. simpl. rewrite filter_In, String.eqb_eq.
  split; [intros [_ E]; now subst | intros ->; auto].
Qed.

Lemma recipients_ToOthers (sid r : string) (l : list string) (rooms : list (string * string)) :
  In r (recipients l rooms (ToOthers sid)) <-> In r l /\ r <> sid.
Proof.
  simpl. rewrite filter_In, negb_true_iff, String.eqb_neq.
  split; intros [H1 H2]; split; auto.
Qed.

(** ** [src/server.js]: live selection *)
Section ServerLive.
Import Server.



End ServerLive.

(** ** Go-live and recorded previews, both servers *)

(** C1, as the claim states it, fails on [src/server.js]: with two sockets
    connected and no frame on record for ["phone"], [go-live("phone")] makes
    ["phone"] the live selection (it was [null]) and sends
    [live-device-changed("phone")] to everyone. *)
Lemma go_live_without_preview_counterexample :
  exists s0 out0 s' out,
    Server.run "/srv" Server.init
      [Server.Connection "control"; Server.Connection "phone"] = Ok (s0, out0) /\
    Server.has_preview s0 (VStr "phone") = false /\
    Server.go_live s0 "control" (VStr "phone") = Ok (s', out) /\
    Server.current s0 = VNull /\
    Server.current s' = VStr "phone" /\
    out = [Msg ToAll "live-device-changed" (VStr "phone")] /\
    Server.recipients_of s' (Msg ToAll "live-device-changed" (VStr "phone"))
      = ["control"; "phone"].
Proof.
  eexists _, _, _, _. repeat split; reflexivity.
Qed.

(** C1, amended.  Neither server sends the arena a frame for a target with
    no (truthy) preview on record.  The server of [src/setup.js] then sends
    nothing at all and changes nothing; with a preview on record it sends the
    frame to the room ['arena-display'] and [device-is-live] to everyone.
    [src/server.js] gates only the arena frame: [go-live] always makes the
    target the live selection and always sends [live-device-changed] to
    everyone. *)
Theorem go_live_preview_policy :
  (forall (s : Setup.state) (sid : string) (deviceId : value),
      exists out,
        Setup.go_live s sid deviceId = Ok (s, out) /\
        (Setup.has_preview s deviceId = false -> out = []) /\
        (Setup.has_preview s deviceId = true ->
           exists dev,
             map_get deviceId (Setup.connectedDevices s) = Some dev /\
             emitted "arena-display-update" out =
               [Msg (ToRoom "arena-display") "arena-display-update"
                    (VObj [("content", Setup.preview dev);
                           ("overlay",
                            VObj [("sponsorLogo", VStr "/images/dodge-ram-logo.png");
                                  ("eventTitle", VStr "RENO RODEO")])])] /\
             emitted "device-is-live" out = [Msg ToAll "device-is-live" deviceId])) /\
  (forall (s : Server.state) (sid : string) (deviceId : value),
      exists out,
        Server.go_live s sid deviceId = Ok (Server.set_activeLiveDevice deviceId s, out) /\
        Server.current (Server.set_activeLiveDevice deviceId s) = deviceId /\
        emitted "live-device-changed" out = [Msg ToAll "live-device-changed" deviceId] /\
        (Server.has_preview s deviceId = false -> emitted "arena-update" out = []) /\
        (Server.has_preview s deviceId = true ->
           emitted "arena-update" out =
             [Msg ToAll "arena-update" (VObj [("stream", Server.stored_stream s deviceId)])])).
Proof.
  split; intros s sid deviceId.
  - unfold Setup.go_live, Setup.has_preview.
    destruct (map_get deviceId (Setup.connectedDevices s)) as [dev|].
    + destruct (truthy (Setup.preview dev)) eqn:T; eexists;
        (split; [reflexivity|]); split; try congruence.
      intros _. exists dev. repeat split; reflexivity.
    + eexists. split; [reflexivity|]. split; congruence.
  - unfold Server.go_live, Server.has_preview.
    destruct (truthy (Server.stored_stream s deviceId)) eqn:T; eexists;
      (split; [reflexivity|]); repeat split; try congruence; reflexivity.
Qed.

(** ** [src/server.js]: the settings store *)
Section ServerSettings.
Import Server.



(** C6, as the claim states it, fails: after [{colors:{background:"#111"}}]
    and then [{margins:{left:5}}] from the default store, the leaves that
    neither partial names are not at their defaults.  [colors.font] reads
    [undefined] where the default is ["#FFFFFF"], because the supplied
    [colors] object replaced the stored one whole. *)
Lemma settings_merge_counterexample :
  exists s2 out,
    run "/srv" init
      [UpdateDisplaySettings "control" partial_colors;
       UpdateDisplaySettings "control" partial_margins] = Ok (s2, out) /\
    read_path ["colors"; "font"] (VObj (displaySettings s2)) = Ok VUndefined /\
    read_path ["colors"; "font"] (VObj (displaySettings init)) = Ok (VStr "#FFFFFF") /\
    ~ spec_merge_outcome (displaySettings s2).
Proof.
  eexists _, _. split; [reflexivity|]. split; [reflexivity|]. split; [reflexivity|].
  intros (_ & _ & H).
  specialize (H ["colors"; "font"]). simpl in H.
  assert (@Ok value VUndefined = Ok (VStr "#FFFFFF")) as E by (apply H; tauto).
  discriminate E.
Qed.

(** C6, amended.  Display updates on different top-level keys compose, each
    supplied sub-object replacing the stored one whole: from the defaults,
    [{colors:{background:"#111"}}] then [{margins:{left:5}}] leaves
    [colors] exactly [{background:"#111"}] and [margins] exactly [{left:5}],
    with the mobile settings at their defaults; in general a truthy [colors]
    and a truthy [margins] both end up stored as supplied, in either order,
    and the mobile settings stay as they were. *)
Theorem display_settings_updates_compose :
  (exists s2 out,
      run "/srv" init
        [UpdateDisplaySettings "control" partial_colors;
         UpdateDisplaySettings "control" partial_margins] = Ok (s2, out) /\
      displaySettings s2 =
        [("margins", VObj [("left", VNum 5)]);
         ("colors", VObj [("background", VStr "#111")])] /\
      mobileSettings s2 = default_mobileSettings) /\
  (forall (s : state) (a b : string) (c m : value),
      truthy c = true -> truthy m = true ->
      exists s1 out1 s2 out2,
        update_display_settings s a (VObj [("colors", c)]) = Ok (s1, out1) /\
        update_display_settings s1 b (VObj [("margins", m)]) = Ok (s2, out2) /\
        field "colors" (displaySettings s2) = c /\
        field "margins" (displaySettings s2) = m /\
        mobileSettings s2 = mobileSettings s /\
        exists t1 o1 t2 o2,
          update_display_settings s b (VObj [("margins", m)]) = Ok (t1, o1) /\
          update_display_settings t1 a (VObj [("colors", c)]) = Ok (t2, o2) /\
          field "colors" (displaySettings t2) = c /\
          field "margins" (displaySettings t2) = m /\
          mobileSettings t2 = mobileSettings s).
Proof.
  split.
  - eexists _, _. repeat split; reflexivity.
  - intros s a b c m Hc Hm.
    unfold update_display_settings. simpl. rewrite Hc, Hm. simpl.
    eexists _, _, _, _. split; [reflexivity|]. split; [reflexivity|].
    unfold field. simpl.
    rewrite assoc_get_set_other by discriminate.
    rewrite !assoc_get_set_same. repeat split; auto.
    eexists _, _, _, _. split; [reflexivity|]. split; [reflexivity|].
    simpl. rewrite assoc_get_set_same.
    rewrite assoc_get_set_other by discriminate.
    rewrite assoc_get_set_same. auto.
Qed.

End ServerSettings.

(** ** [path.join] on the upload path *)
Section PathFacts.
Import Path.

Lemma split_on_nonempty (sep : ascii) (s : string) : split_on sep s <> [].
Proof.
  destruct s as [|c rest]; simpl; [discriminate|].
  destruct (Ascii.eqb c sep); [discriminate|].
  destruct (split_on sep rest); discriminate.
Qed.

(** Splitting distributes over a separator in the middle. *)
Lemma split_on_app (sep : ascii) (a b : string) :
  split_on sep (a ++ String sep b)%string = split_on sep a ++ split_on sep b.
Proof.
  induction a as [|c a IH]; simpl.
  - now rewrite Ascii.eqb_refl.
  - destruct (Ascii.eqb c sep); [now rewrite IH|].
    rewrite IH. pose proof (split_on_nonempty sep a) as Hne.
    destruct (split_on sep a); [congruence | reflexivity].
Qed.

Lemma isAbsolute_app (a b : string) :
  a <> ""%string -> isAbsolute (a ++ b)%string = isAbsolute a.
Proof. destruct a; [congruence | reflexivity]. Qed.

Lemma trailingSeparator_app (a : string) (c : ascii) (b : string) :
  trailingSeparator (a ++ String c b)%string = trailingSeparator (String c b).
Proof.
  induction a as [|x a IH]; [reflexivity|].
  change ((String x a ++ String c b)%string) with (String x (a ++ String c b)%string).
  destruct a; simpl in *; auto.
Qed.

Lemma append_assoc (a b c : string) : ((a ++ b) ++ c = a ++ (b ++ c))%string.
Proof. induction a; simpl; congruence. Qed.

Lemma with_sep_cons (seg : string) (segs : list string) :
  with_sep (seg :: segs) = (seg ++ "/" ++ with_sep segs)%string.
Proof.
  unfold with_sep. simpl. destruct (map _ segs) eqn:E.
  - reflexivity.
  - simpl. now rewrite append_assoc.
Qed.

Lemma concat_with_sep (r : list string) (x : string) (l : list string) :
  String.concat "/" (r ++ x :: l) = (with_sep r ++ String.concat "/" (x :: l))%string.
Proof.
  induction r as [|seg r IH]; [reflexivity|].
  rewrite with_sep_cons, !append_assoc, <- IH.
  simpl. destruct (r ++ x :: l) eqn:E; [|reflexivity].
  destruct r; discriminate.
Qed.

Lemma eqb_app_cancel (p a b : string) :
  String.eqb (p ++ a) (p ++ b) = String.eqb a b.
Proof.
  induction p as [|c p IH]; simpl; [reflexivity|].
  now rewrite Ascii.eqb_refl.
Qed.

Lemma prefix_app_cancel (p a b : string) :
  String.prefix (p ++ a) (p ++ b) = String.prefix a b.
Proof.
  induction p as [|c p IH]; simpl; [reflexivity|].
  destruct (ascii_dec c c); congruence.
Qed.

Lemma inside_app_cancel (p a b : string) :
  inside (p ++ a) (p ++ b) = inside a b.
Proof.
  unfold inside. now rewrite append_assoc, eqb_app_cancel, prefix_app_cancel.
Qed.

Lemma eqb_app_nonempty (a : string) (c : ascii) (b : string) :
  String.eqb (a ++ String c b) "" = false.
Proof. destruct a; reflexivity. Qed.

(** [normalize] of a path whose segment fold ends in [seg :: _], with no
    trailing separator. *)
Lemma normalize_segments (path : string) (r l : list string) (x : string) :
  path <> ""%string ->
  trailingSeparator path = false ->
  x <> ""%string ->
  segments path (negb (isAbsolute path)) = r ++ l ++ [x] ->
  normalize path =
    ((if isAbsolute path then "/" else "") ++ with_sep r ++ String.concat "/" (l ++ [x]))%string.
Proof.
  intros Hne Htr Hx Hseg. unfold normalize, normalizeString.
  destruct (String.eqb_spec path ""); [congruence|].
  rewrite Hseg, Htr.
  destruct l as [|y l].
  - change (@nil string ++ [x]) with [x]. rewrite (@concat_with_sep r).
    simpl String.concat.
    destruct x as [|cx x]; [congruence|].
    rewrite eqb_app_nonempty. destruct (isAbsolute path); reflexivity.
  - change ((y :: l) ++ [x]) with (y :: (l ++ [x])).
    rewrite (@concat_with_sep r).
    assert (exists c t, String.concat "/" (y :: (l ++ [x])) = String c t) as (c & t & E).
    { simpl. destruct (l ++ [x]) eqn:El; [destruct l; discriminate|].
      destruct y; simpl; eauto. }
    rewrite E, eqb_app_nonempty. destruct (isAbsolute path); reflexivity.
Qed.

End PathFacts.

(** ** [src/server.js]: the shape of a completed upload *)
Section ServerUploadShape.
Import Server.
Variable dirname : string.

Lemma upload_sponsor_Ok (s : state) (sid : string) (data : value)
    (s' : state) (out : list message) :
  upload_sponsor dirname s sid data = Ok (s', out) ->
  exists fn fd b64 dirs files,
    get_prop data "fileName" = Ok (VStr fn) /\
    get_prop data "fileData" = Ok (VStr fd) /\
    nth_error (Path.split_on "," fd) 1 = Some b64 /\
    ensure_uploads_dir dirname s = Ok dirs /\
    writeFileSync dirs (fs_files s) (upload_path dirname fn) b64 = Ok files /\
    s' = set_fs dirs files s /\
    out = [Msg (ToSocket sid) "sponsor-uploaded"
               (VObj [("url", VStr ("/uploads/" ++ fn)%string)])].
Proof.
  unfold upload_sponsor.
  destruct (get_prop data "fileName") as [v1|]; cbn [bind]; [|discriminate].
  destruct (get_prop data "fileData") as [v2|]; cbn [bind]; [|discriminate].
  destruct v1 as [| | | |fn| |]; try discriminate.
  destruct v2 as [| | | |fd| |]; try discriminate.
  destruct (ensure_uploads_dir dirname s) as [dirs|] eqn:D; cbn [bind]; [|discriminate].
  destruct (nth_error (Path.split_on "," fd) 1) as [b64|] eqn:N; [|discriminate].
  destruct (writeFileSync dirs (fs_files s) (upload_path dirname fn) b64)
    as [files|] eqn:W; cbn [bind]; [|discriminate].
  intros [= <- <-]. exists fn, fd, b64, dirs, files. repeat split; auto.
Qed.

Lemma upload_sponsor_run (s : state) (sid : string) (f : list (string * value))
    (fn fd b64 : string) (dirs : list string) (files : list (string * string)) :
  field "fileName" f = VStr fn ->
  field "fileData" f = VStr fd ->
  nth_error (Path.split_on "," fd) 1 = Some b64 ->
  ensure_uploads_dir dirname s = Ok dirs ->
  writeFileSync dirs (fs_files s) (upload_path dirname fn) b64 = Ok files ->
  upload_sponsor dirname s sid (VObj f) =
    Ok (set_fs dirs files s,
        [Msg (ToSocket sid) "sponsor-uploaded"
             (VObj [("url", VStr ("/uploads/" ++ fn)%string)])]).
Proof.
  intros Hfn Hfd Hb Hd Hw.
  unfold upload_sponsor, get_prop. cbn [bind].
  fold (field "fileName" f) (field "fileData" f).
  rewrite Hfn, Hfd, Hd. cbn [bind]. rewrite Hb, Hw. reflexivity.
Qed.

Lemma writeFileSync_Ok (dirs : list string) (files files' : list (string * string))
    (p data : string) :
  writeFileSync dirs files p data = Ok files' ->
  files' = assoc_set p data files /\
  has_char "000" p = false /\
  Path.trailingSeparator p = false /\
  is_directory dirs p = false /\
  is_directory dirs (Path.parent p) = true.
Proof.
  unfold writeFileSync.
  destruct (has_char "000" p); [discriminate|].
  destruct (Path.trailingSeparator p); [discriminate|].
  destruct (is_directory dirs p); [discriminate|]. simpl.
  destruct (is_directory dirs (Path.parent p)); [|discriminate].
  intros [= <-]. auto.
Qed.

End ServerUploadShape.

(** ** [src/server.js]: sponsor upload *)
Section ServerUpload.
Import Path.
Variable dirname : string.

(** [normalize (dirname + '/' + t)] when the segments of [t] leave [l ++ [x]]
    on top of whatever [dirname] left. *)
Lemma normalize_below_dirname (t : string) (l : list string) (x : string) :
  dirname <> ""%string ->
  trailingSeparator (String "/" t) = false ->
  x <> ""%string ->
  (forall flag st,
      fold_left (push_segment flag) (split_on "/" t) st = x :: List.rev l ++ st) ->
  normalize (dirname ++ String "/" t) =
    (base dirname ++ String.concat "/" (l ++ [x]))%string.
Proof.
  intros Hd Ht Hx Hfold.
  assert (isAbsolute (dirname ++ String "/" t) = isAbsolute dirname) as Habs
    by now apply isAbsolute_app.
  rewrite (@normalize_segments (dirname ++ String "/" t)
             (List.rev (fold_left (push_segment (negb (isAbsolute dirname)))
                          (split_on "/" dirname) [])) l x).
  - rewrite Habs. unfold base, segments. now rewrite append_assoc.
  - destruct dirname; [congruence | discriminate].
  - now rewrite trailingSeparator_app.
  - assumption.
  - unfold segments. rewrite Habs, split_on_app, fold_left_app, Hfold.
    simpl. rewrite rev_app_distr, rev_involutive, <- app_assoc. reflexivity.
Qed.

Lemma uploads_dir_normal :
  dirname <> ""%string ->
  Server.uploads_dir dirname = (base dirname ++ "public/uploads")%string.
Proof.
  intros Hd. unfold Server.uploads_dir, join. simpl filter.
  destruct (String.eqb_spec dirname ""); [congruence|]. simpl negb. cbv iota.
  change (String.concat "/" [dirname; "public"; "uploads"])
    with (dirname ++ String "/" "public/uploads")%string.
  rewrite (@normalize_below_dirname "public/uploads" ["public"] "uploads");
    auto; try discriminate.
Qed.

Lemma upload_path_traversal :
  dirname <> ""%string ->
  Server.upload_path dirname "../../server.js" = (base dirname ++ "server.js")%string.
Proof.
  intros Hd. unfold Server.upload_path, join. simpl filter.
  destruct (String.eqb_spec dirname ""); [congruence|]. simpl negb. cbv iota.
  change (String.concat "/" [dirname; "public"; "uploads"; "../../server.js"])
    with (dirname ++ String "/" "public/uploads/../../server.js")%string.
  rewrite (@normalize_below_dirname "public/uploads/../../server.js" [] "server.js");
    auto; try discriminate.
Qed.

Lemma join_beside_server :
  dirname <> ""%string ->
  join [dirname; "server.js"] = (base dirname ++ "server.js")%string.
Proof.
  intros Hd. unfold join. simpl filter.
  destruct (String.eqb_spec dirname ""); [congruence|]. simpl negb. cbv iota.
  change (String.concat "/" [dirname; "server.js"])
    with (dirname ++ String "/" "server.js")%string.
  rewrite (@normalize_below_dirname "server.js" [] "server.js");
    auto; try discriminate.
Qed.

(** C10.  [upload-sponsor] takes [fileName] as the client sent it.  Whenever
    the handler runs to completion, the payload held a string [fileName] and
    a string [fileData] with a comma, the file written is the one at
    [path.join(__dirname, 'public', 'uploads', fileName)], holding what
    follows the first comma, and the reply to the uploader carries
    ['/uploads/' + fileName]: the name is neither checked nor rewritten.  So
    a [fileName] with ['..'] segments escapes the uploads directory: whatever
    [__dirname] is, ['../../server.js'] resolves to [server.js] in
    [__dirname] itself, outside [public/uploads]; and such an upload does
    complete, as on a server started in [/srv/app] with nothing uploaded
    yet, where it writes [/srv/app/server.js]. *)
Theorem upload_sponsor_fileName_verbatim :
  (forall (s : Server.state) (sid : string) (data : value)
          (s' : Server.state) (out : list message),
      Server.upload_sponsor dirname s sid data = Ok (s', out) ->
      exists fn fd b64,
        get_prop data "fileName" = Ok (VStr fn) /\
        get_prop data "fileData" = Ok (VStr fd) /\
        nth_error (split_on "," fd) 1 = Some b64 /\
        out = [Msg (ToSocket sid) "sponsor-uploaded"
                   (VObj [("url", VStr ("/uploads/" ++ fn)%string)])] /\
        assoc_get (join [dirname; "public"; "uploads"; fn]) (Server.fs_files s')
          = Some b64) /\
  In ".." (split_on "/" "../../server.js") /\
  Server.upload_path dirname "../../server.js" = join [dirname; "server.js"] /\
  inside (Server.uploads_dir dirname) (Server.upload_path dirname "../../server.js") = false /\
  (exists s',
      Server.upload_sponsor "/srv/app" Server.init "control"
        (VObj [("fileName", VStr "../../server.js");
               ("fileData", VStr "data:text/plain;base64,QUJD")]) =
        Ok (s', [Msg (ToSocket "control") "sponsor-uploaded"
                     (VObj [("url", VStr "/uploads/../../server.js")])]) /\
      Server.fs_files s' = [("/srv/app/server.js", "QUJD")] /\
      inside (Server.uploads_dir "/srv/app") "/srv/app/server.js" = false).
Proof.
  split; [|split; [|split; [|split]]].
  - intros s sid data s' out H.
    apply upload_sponsor_Ok in H
      as (fn & fd & b64 & dirs & files & Hfn & Hfd & Hb & _ & Hw & -> & ->).
    apply writeFileSync_Ok in Hw as (-> & _).
    exists fn, fd, b64. repeat split; auto.
    simpl. apply assoc_get_set_same.
  - simpl. auto.
  - destruct (String.eqb_spec dirname "") as [->|Hd]; [reflexivity|].
    now rewrite upload_path_traversal, join_beside_server.
  - destruct (String.eqb_spec dirname "") as [->|Hd]; [reflexivity|].
    rewrite upload_path_traversal, uploads_dir_normal by assumption.
    now rewrite inside_app_cancel.
  - eexists. repeat split; reflexivity.
Qed.

End ServerUpload.

(** ** The server of [src/setup.js]: the device registry *)
Section SetupRegistry.
Import Setup.

Lemma listed_ids_keys (s : state) :
  listed_ids s = map VStr (keys (connectedDevices s)).
Proof.
  unfold listed_ids, deviceList, keys. rewrite !map_map.
  apply map_ext. intros [k d]. reflexivity.
Qed.



(** A socket id names at most one registry entry. *)
Lemma reachable_NoDup (s : state) : reachable s -> NoDup (keys (connectedDevices s)).
Proof.
  induction 1 as [|s e s' out Hr IH Hstep]; [constructor|].
  destruct e; simpl in Hstep;
    unfold connection, control_room_connected, arena_display_connected,
      register_mobile_device, camera_access_approved, preview_update, go_live,
      disconnect, join in Hstep.
  - now inversion Hstep; subst.
  - inversion Hstep; subst. destruct (existsb _ _); auto.
  - inversion Hstep; subst. destruct (existsb _ _); auto.
  - destruct (get_prop deviceInfo "name"); simpl in Hstep; [|discriminate].
    inversion Hstep; subst. simpl. now apply NoDup_keys_set.
  - now inversion Hstep; subst.
  - destruct (assoc_get sid (connectedDevices s)); inversion Hstep; subst; auto.
    simpl. now apply NoDup_keys_set.
  - destruct (map_get deviceId (connectedDevices s)); [destruct (truthy _)|];
      inversion Hstep; subst; auto.
  - simpl in Hstep. destruct (assoc_has sid (connectedDevices s));
      inversion Hstep; subst; auto.
    simpl. now apply NoDup_keys_del.
Qed.



End SetupRegistry.

(** ** Frames from sockets that never registered, both servers *)

(** C5, as the claim states it, fails on [src/server.js], which keeps no
    registry: a socket that connected and never sent
    [register-mobile-device] sends a frame; the frame is stored as its latest
    and goes out as [preview-update] to everyone connected. *)
Lemma frame_from_unregistered_socket_counterexample :
  exists s0 out0 s' out,
    Server.run "/srv" Server.init
      [Server.Connection "control"; Server.Connection "visitor"] = Ok (s0, out0) /\
    Server.camera_stream s0 "visitor" (VStr "frameA") = Ok (s', out) /\
    s' <> s0 /\
    assoc_get "visitor" (Server.streams s0) = None /\
    assoc_get "visitor" (Server.streams s') = Some (VStr "frameA") /\
    out = [Msg ToAll "preview-update"
               (VObj [("id", VStr "visitor"); ("stream", VStr "frameA")])] /\
    Server.recipients_of s'
      (Msg ToAll "preview-update"
           (VObj [("id", VStr "visitor"); ("stream", VStr "frameA")]))
      = ["control"; "visitor"].
Proof.
  eexists _, _, _, _. repeat split; try reflexivity. discriminate.
Qed.

(** C5, amended.  In the server of [src/setup.js] a [preview-update] from a
    socket with no registry entry changes nothing and sends nothing, and so
    does any sequence of such updates: no entry is created, no stored
    preview is touched, no message goes out.  [src/server.js] has no
    registry to consult ([register-mobile-device] leaves its state as it
    was): [camera-stream] from any socket stores the frame as that socket's
    latest and sends it as [preview-update] to everyone. *)
Theorem frames_from_unregistered_sockets :
  (forall (s : Setup.state) (sid : string) (imageData : value),
      assoc_has sid (Setup.connectedDevices s) = false ->
      Setup.preview_update s sid imageData = Ok (s, [])) /\
  (forall (s : Setup.state) (es : list Setup.event),
      (forall e, In e es ->
         exists sid imageData,
           e = Setup.PreviewUpdate sid imageData /\
           assoc_has sid (Setup.connectedDevices s) = false) ->
      Setup.run s es = Ok (s, [])) /\
  (forall (s : Server.state) (sid : string) (data : value) (s1 : Server.state)
          (out1 : list message),
      Server.register_mobile_device s sid data = Ok (s1, out1) -> s1 = s) /\
  (forall (s : Server.state) (sid : string) (data : value),
      exists s' rest,
        Server.camera_stream s sid data =
          Ok (s', Msg ToAll "preview-update"
                      (VObj [("id", VStr sid); ("stream", data)]) :: rest) /\
        assoc_get sid (Server.streams s') = Some data /\
        emitted "preview-update" rest = []).
Proof.
  assert (forall (s : Setup.state) (sid : string) (imageData : value),
             assoc_has sid (Setup.connectedDevices s) = false ->
             Setup.preview_update s sid imageData = Ok (s, [])) as Hone.
  { intros s sid imageData. unfold assoc_has, Setup.preview_update.
    destruct (assoc_get sid (Setup.connectedDevices s)); [discriminate | reflexivity]. }
  split; [exact Hone|]. split; [|split].
  - intros s es. induction es as [|e es IH]; intros Hes; [reflexivity|].
    destruct (Hes e (or_introl eq_refl)) as (sid & imageData & -> & Hno).
    simpl. rewrite (Hone s sid imageData Hno). simpl.
    rewrite IH by (intros e' He'; apply Hes; now right). reflexivity.
  - intros s sid data s1 out1. unfold Server.register_mobile_device.
    destruct (get_prop data "name"); simpl; [|discriminate].
    now intros [= <- _].
  - intros s sid data. unfold Server.camera_stream.
    eexists _, _. split; [reflexivity|]. simpl.
    rewrite assoc_get_set_same. split; [reflexivity|].
    destruct (strict_eq_str sid (Server.activeLiveDevice s)); reflexivity.
Qed.

(** ** The server of [src/setup.js]: registration and the control-room snapshot *)
Section SetupRegistration.
Import Setup.

Lemma deviceList_length (s : state) : List.length (deviceList s) = size s.
Proof. unfold deviceList, size. apply length_map. Qed.

(** C4.  A socket that announces itself as control room is sent, in that same
    handler run and to it alone, one [device-list-update] whose array has one
    [{id, preview, type, name}] element per registered device, in
    registration order.  After two mobiles with distinct ids have registered
    under the names [n1] and [n2], the array has exactly these two elements,
    with those names, before any frame has arrived. *)
Theorem control_room_snapshot :
  (forall (s : state) (sid : string),
      exists s',
        control_room_connected s sid =
          Ok (s', [Msg (ToSocket sid) "device-list-update" (VArr (deviceList s))]) /\
        connectedDevices s' = connectedDevices s /\
        List.length (deviceList s) = size s /\
        (forall id dev,
            In (id, dev) (connectedDevices s) ->
            In (VObj [("id", VStr id); ("preview", preview dev);
                      ("type", VStr (type dev)); ("name", name dev)])
               (deviceList s)) /\
        (In sid (sockets s) ->
         forall r,
           In r (recipients_of s' (Msg (ToSocket sid) "device-list-update"
                                       (VArr (deviceList s))))
           <-> r = sid)) /\
  (forall (m1 m2 cr : string) (n1 n2 : value),
      m1 <> m2 -> truthy n1 = true -> truthy n2 = true ->
      exists s out s',
        run init [Connection m1; RegisterMobileDevice m1 (VObj [("name", n1)]);
                  Connection m2; RegisterMobileDevice m2 (VObj [("name", n2)]);
                  Connection cr] = Ok (s, out) /\
        control_room_connected s cr =
          Ok (s', [Msg (ToSocket cr) "device-list-update"
                       (VArr [VObj [("id", VStr m1); ("preview", VNull);
                                    ("type", VStr "mobile"); ("name", n1)];
                              VObj [("id", VStr m2); ("preview", VNull);
                                    ("type", VStr "mobile"); ("name", n2)]])])).
Proof.
  split.
  - intros s sid. unfold control_room_connected, join.
    assert (forall s1, connectedDevices s1 = connectedDevices s ->
                       deviceList s1 = deviceList s) as Hlist
      by (intros s1 E; unfold deviceList; now rewrite E).
    destruct (existsb _ (rooms s)); eexists;
      (split; [try reflexivity|]);
      try (split; [reflexivity|]); try (split; [apply deviceList_length|]); split.
    + intros id dev Hin. apply (in_map device_summary) in Hin. exact Hin.
    + intros Hin r. unfold recipients_of. simpl target.
      now apply recipients_ToSocket.
    + intros id dev Hin. apply (in_map device_summary) in Hin. exact Hin.
    + intros Hin r. unfold recipients_of. simpl target.
      now apply recipients_ToSocket.
  - intros m1 m2 cr n1 n2 Hne H1 H2.
    simpl. unfold or_else. rewrite H1, H2. simpl.
    destruct (String.eqb_spec m2 m1) as [E|_]; [congruence|].
    eexists _, _, _. split; [reflexivity|].
    unfold control_room_connected, join. simpl. reflexivity.
Qed.

Lemma phone_label_inj (n m : nat) : phone_label n = phone_label m -> n = m.
Proof.
  unfold phone_label. intros [= E]. now apply decimal_inj.
Qed.

(** C7, as the claim states it, fails three ways.  [src/server.js] assigns no
    name at all: a registration without one is announced with [name]
    undefined and nothing is stored.  In the server of [src/setup.js] the
    number in ["Phone N"] is no serial number: after [a] and [b] registered
    and [a] left, [c] is stored as ["Phone 2"] beside [b], also ["Phone 2"].
    And overwriting is not idempotent from the start: [m1], stored as
    ["Phone 1"], becomes ["Phone 2"] when it sends the same registration
    again. *)
Lemma register_default_name_counterexample :
  (exists out,
      Server.register_mobile_device Server.init "m1" (VObj []) = Ok (Server.init, out) /\
      emitted "device-connected" out =
        [Msg ToAll "device-connected" (VObj [("id", VStr "m1"); ("name", VUndefined)])]) /\
  (exists s out,
      run init [Connection "a"; RegisterMobileDevice "a" (VObj []);
                Connection "b"; RegisterMobileDevice "b" (VObj []);
                Disconnect "a";
                Connection "c"; RegisterMobileDevice "c" (VObj [])] = Ok (s, out) /\
      map (fun entry => (fst entry, name (snd entry))) (connectedDevices s) =
        [("b", VStr "Phone 2"); ("c", VStr "Phone 2")]) /\
  (exists s1 out1 s2 out2,
      run init [Connection "m1"; RegisterMobileDevice "m1" (VObj [])] = Ok (s1, out1) /\
      register_mobile_device s1 "m1" (VObj []) = Ok (s2, out2) /\
      map (fun entry => (fst entry, name (snd entry))) (connectedDevices s1) =
        [("m1", VStr "Phone 1")] /\
      map (fun entry => (fst entry, name (snd entry))) (connectedDevices s2) =
        [("m1", VStr "Phone 2")] /\
      s2 <> s1).
Proof.
  split; [|split].
  - eexists. split; reflexivity.
  - eexists _, _. split; vm_compute; reflexivity.
  - eexists _, _, _, _.
    do 4 (split; [vm_compute; reflexivity|]). discriminate.
Qed.

(** C7, amended.  In the server of [src/setup.js] a registration whose
    [name] is missing (or otherwise falsy) stores the device under the
    generated name ["Phone N"], [N] being the registry size at that moment
    plus one, in decimal: ["Phone 1"] and ["Phone 2"] for the first two
    devices, different sizes giving different names.  The mobile page itself
    sends ["Anonymous"] for a blank input, which is then stored as given.
    Registering an id that already has an entry does not throw and adds no
    entry: it overwrites the entry's type and name in place (the generated
    name counting the entry itself), and registering once more with the same
    payload changes nothing further.  [src/server.js] stores nothing on
    registration and generates no name: it announces [data.name] as it came,
    undefined when the payload has none. *)
Theorem register_mobile_default_name :
  (forall (s : state) (sid : string) (f : list (string * value)),
      truthy (field "name" f) = false ->
      exists s' out,
        register_mobile_device s sid (VObj f) = Ok (s', out) /\
        assoc_get sid (connectedDevices s') =
          Some {| type := "mobile";
                  name := VStr ("Phone " ++ decimal (size s + 1))%string;
                  preview := VNull |}) /\
  ((forall n m : nat, phone_label n = phone_label m -> n = m) /\
   exists s out,
     run init [Connection "a"; RegisterMobileDevice "a" (VObj []);
               Connection "b"; RegisterMobileDevice "b" (VObj [("name", VStr "")])]
       = Ok (s, out) /\
     connectedDevices s =
       [("a", {| type := "mobile"; name := VStr "Phone 1"; preview := VNull |});
        ("b", {| type := "mobile"; name := VStr "Phone 2"; preview := VNull |})]) /\
  (mobile_client_name "" = VStr "Anonymous" /\
   forall (s : state) (sid : string),
     exists s' out,
       register_mobile_device s sid (VObj [("name", mobile_client_name "")]) = Ok (s', out) /\
       assoc_get sid (connectedDevices s') =
         Some {| type := "mobile"; name := VStr "Anonymous"; preview := VNull |}) /\
  (forall (s : state) (sid : string) (f : list (string * value)),
      assoc_has sid (connectedDevices s) = true ->
      exists s' out,
        register_mobile_device s sid (VObj f) = Ok (s', out) /\
        keys (connectedDevices s') = keys (connectedDevices s) /\
        assoc_get sid (connectedDevices s') =
          Some {| type := "mobile";
                  name := or_else (field "name" f) (phone_label (size s + 1));
                  preview := VNull |} /\
        exists out', register_mobile_device s' sid (VObj f) = Ok (s', out')) /\
  (forall (s : Server.state) (sid : string) (f : list (string * value)),
      Server.register_mobile_device s sid (VObj f) =
        Ok (s, [Msg ToAll "device-connected"
                    (VObj [("id", VStr sid); ("name", field "name" f)]);
                Msg (ToSocket sid) "mobile-settings-updated"
                    (VObj (Server.mobileSettings s))])).
Proof.
  split; [|split; [split|split; [split|split]]].
  - intros s sid f Hf. unfold register_mobile_device, get_prop, bind.
    fold (field "name" f). unfold or_else. rewrite Hf.
    eexists _, _. split; [reflexivity|]. simpl. apply assoc_get_set_same.
  - exact phone_label_inj.
  - eexists _, _. split; vm_compute; reflexivity.
  - reflexivity.
  - intros s sid. eexists _, _. split; [reflexivity|]. simpl.
    apply assoc_get_set_same.
  - intros s sid f Hhas. unfold register_mobile_device, get_prop, bind.
    fold (field "name" f).
    eexists _, _. split; [reflexivity|]. simpl.
    split; [now apply keys_set_present|].
    split; [apply assoc_get_set_same|].
    eexists. unfold size. simpl.
    assert (List.length (assoc_set sid
              {| type := "mobile";
                 name := or_else (field "name" f)
                           (phone_label (List.length (connectedDevices s) + 1));
                 preview := VNull |} (connectedDevices s))
            = List.length (connectedDevices s)) as Hlen.
    { rewrite <- (length_map fst (assoc_set _ _ _)), <- (length_map fst (connectedDevices s)).
      fold (keys (connectedDevices s)).
      change (map fst ?m) with (keys m).
      now rewrite keys_set_present. }
    rewrite Hlen, assoc_set_twice. reflexivity.
  - intros s sid f. reflexivity.
Qed.

End SetupRegistration.

(** ** Further properties of the two servers *)
Section SetupFurther.
Import Setup.

(** When a socket that already has an entry registers again without a name,
    the entry gets ["Phone (size + 1)"] but the [device-connected] message
    carries ["Phone (size)"]: the label is computed once before and once
    after [connectedDevices.set], and the size did not grow in between. *)
Theorem reregistration_announces_other_label
    (s : state) (sid : string) (f : list (string * value)) :
  assoc_has sid (connectedDevices s) = true ->
  truthy (field "name" f) = false ->
  exists s',
    register_mobile_device s sid (VObj f) =
      Ok (s', [Msg (ToRoom "control-room") "device-connected"
                   (VObj [("id", VStr sid); ("type", VStr "mobile");
                          ("name", phone_label (size s))])]) /\
    assoc_get sid (connectedDevices s') =
      Some {| type := "mobile"; name := phone_label (size s + 1); preview := VNull |} /\
    phone_label (size s) <> phone_label (size s + 1).
Proof.
  intros Hhas Hf. unfold register_mobile_device, get_prop, bind.
  fold (field "name" f). unfold or_else. rewrite Hf.
  assert (size (set_connectedDevices
                  (assoc_set sid
                     {| type := "mobile"; name := phone_label (size s + 1); preview := VNull |}
                     (connectedDevices s)) s) = size s) as Hsize.
  { unfold size. simpl.
    rewrite <- (length_map fst (assoc_set _ _ _)), <- (length_map fst (connectedDevices s)).
    change (map fst ?m) with (keys m). now rewrite keys_set_present. }
  rewrite Hsize. eexists. split; [reflexivity|]. simpl.
  split; [apply assoc_get_set_same|].
  unfold phone_label. intros [= E]. apply decimal_inj in E. lia.
Qed.

Lemma reregistration_announces_other_label_witness :
  exists s',
    register_mobile_device
      {| connectedDevices := [("m1", {| type := "mobile"; name := VStr "Phone 1"; preview := VNull |})];
         sockets := ["m1"]; rooms := [] |} "m1" (VObj []) =
      Ok (s', [Msg (ToRoom "control-room") "device-connected"
                   (VObj [("id", VStr "m1"); ("type", VStr "mobile");
                          ("name", phone_label 1)])]) /\
    assoc_get "m1" (connectedDevices s') =
      Some {| type := "mobile"; name := phone_label (1 + 1); preview := VNull |} /\
    phone_label 1 <> phone_label (1 + 1).
Proof.
  apply (@reregistration_announces_other_label
           {| connectedDevices := [("m1", {| type := "mobile"; name := VStr "Phone 1"; preview := VNull |})];
              sockets := ["m1"]; rooms := [] |} "m1" []); reflexivity.
Defined.

(** A [preview-update] from a registered device stores the frame in its
    entry, keeping type and name, and sends it to the room ['control-room']
    only: this server has no path from a frame to the arena display. *)
Theorem preview_update_known_session
    (s : state) (sid : string) (dev : device) (imageData : value) :
  assoc_get sid (connectedDevices s) = Some dev ->
  exists s',
    preview_update s sid imageData =
      Ok (s', [Msg (ToRoom "control-room") "preview-update"
                   (VObj [("deviceId", VStr sid); ("preview", imageData)])]) /\
    assoc_get sid (connectedDevices s') =
      Some {| type := type dev; name := name dev; preview := imageData |} /\
    keys (connectedDevices s') = keys (connectedDevices s).
Proof.
  intros Hdev. unfold preview_update. rewrite Hdev.
  eexists. split; [reflexivity|]. simpl.
  split; [apply assoc_get_set_same|].
  apply keys_set_present. unfold assoc_has. now rewrite Hdev.
Qed.

Lemma preview_update_known_session_witness :
  exists s',
    preview_update
      {| connectedDevices := [("m1", {| type := "mobile"; name := VStr "Cowboy1"; preview := VNull |})];
         sockets := ["m1"]; rooms := [] |} "m1" (VStr "frameA") =
      Ok (s', [Msg (ToRoom "control-room") "preview-update"
                   (VObj [("deviceId", VStr "m1"); ("preview", VStr "frameA")])]) /\
    assoc_get "m1" (connectedDevices s') =
      Some {| type := "mobile"; name := VStr "Cowboy1"; preview := VStr "frameA" |} /\
    keys (connectedDevices s') = ["m1"].
Proof.
  apply (@preview_update_known_session
           {| connectedDevices := [("m1", {| type := "mobile"; name := VStr "Cowboy1"; preview := VNull |})];
              sockets := ["m1"]; rooms := [] |}
           "m1" {| type := "mobile"; name := VStr "Cowboy1"; preview := VNull |} (VStr "frameA")).
  reflexivity.
Defined.

End SetupFurther.

Section ServerFurther.
Import Server.

(** In [src/server.js], [go-live(a)] followed by [go-live(b)] leaves [b] as
    the one live selection, and each [live-device-changed] message names
    exactly the id of its own request. *)
Theorem go_live_replaces_live_selection
    (dirname : string) (s : state) (sa sb : string) (a b : value) :
  exists s' out,
    run dirname s [GoLive sa a; GoLive sb b] = Ok (s', out) /\
    current s' = b /\
    emitted "live-device-changed" out =
      [Msg ToAll "live-device-changed" a; Msg ToAll "live-device-changed" b].
Proof.
  simpl. unfold go_live. simpl.
  eexists _, _. split; [reflexivity|]. split; [reflexivity|].
  unfold emitted. rewrite !filter_app. simpl.
  destruct (truthy (stored_stream s a)); destruct (truthy (stored_stream _ b));
    reflexivity.
Qed.

(** In [src/server.js] a settings update is passed on as received (the
    partial, not the merged store) to every connected socket but the sender. *)
Theorem settings_update_reaches_others (s : state) (sid : string) (f : list (string * value)) :
  exists s1 s2,
    update_display_settings s sid (VObj f) =
      Ok (s1, [Msg (ToOthers sid) "display-settings-updated" (VObj f)]) /\
    update_mobile_settings s sid (VObj f) =
      Ok (s2, [Msg (ToOthers sid) "mobile-settings-updated" (VObj f)]) /\
    (forall r,
        In r (recipients_of s1 (Msg (ToOthers sid) "display-settings-updated" (VObj f)))
        <-> In r (sockets s) /\ r <> sid) /\
    (forall r,
        In r (recipients_of s2 (Msg (ToOthers sid) "mobile-settings-updated" (VObj f)))
        <-> In r (sockets s) /\ r <> sid).
Proof.
  unfold update_display_settings, update_mobile_settings. simpl.
  eexists _, _. split; [reflexivity|]. split; [reflexivity|].
  split; intros r; unfold recipients_of; simpl target; simpl sockets;
    apply recipients_ToOthers.
Qed.

End ServerFurther.

(** ** More on keyed collections and strings *)
Section MoreKeyedFacts.
Variable A : Type.
Implicit Types (m : list (string * A)) (k : string) (v : A).

Lemma assoc_get_del_other k k' m :
  k <> k' -> assoc_get k (assoc_del k' m) = assoc_get k m.
Proof.
  intros Hne. induction m as [|[k0 v0] rest IH]; simpl; [reflexivity|].
  destruct (String.eqb_spec k' k0) as [->|Hk]; simpl.
  - destruct (String.eqb_spec k k0); congruence.
  - now rewrite IH.
Qed.

Lemma In_keys_set k k' v m :
  In k (keys (assoc_set k' v m)) -> k = k' \/ In k (keys m).
Proof.
  intros Hin. destruct (String.eqb_spec k k') as [->|Hne]; [auto|].
  right. apply assoc_get_In. apply assoc_get_In in Hin.
  now rewrite assoc_get_set_other in Hin.
Qed.

Lemma In_keys_set_keep k k' v m :
  In k (keys m) -> In k (keys (assoc_set k' v m)).
Proof.
  intros Hin. apply assoc_get_In. apply assoc_get_In in Hin.
  destruct (String.eqb_spec k k') as [->|Hne].
  - rewrite assoc_get_set_same. discriminate.
  - now rewrite assoc_get_set_other.
Qed.

Lemma In_keys_del k k' m :
  NoDup (keys m) -> In k (keys (assoc_del k' m)) -> In k (keys m) /\ k <> k'.
Proof.
  intros Hnd Hin. split; [now apply keys_del_incl in Hin|].
  intros ->. now apply (keys_del_same k' m Hnd).
Qed.

End MoreKeyedFacts.

Lemma split_on_no_sep (c : ascii) (s : string) :
  has_char c s = false -> Path.split_on c s = [s].
Proof.
  induction s as [|x s IH]; simpl; [reflexivity|].
  destruct (Ascii.eqb x c); simpl; [discriminate|].
  intros H. now rewrite IH.
Qed.

Lemma split_on_with_sep (c : ascii) (s : string) :
  has_char c s = true -> exists a b rest, Path.split_on c s = a :: b :: rest.
Proof.
  induction s as [|x s IH]; simpl; [discriminate|].
  destruct (Ascii.eqb x c); simpl.
  - intros _. pose proof (split_on_nonempty c s) as Hne.
    destruct (Path.split_on c s) as [|b rest]; [congruence | eauto].
  - intros H. destruct (IH H) as (a & b & rest & ->). eauto.
Qed.

Lemma trailingSeparator_no_slash (s : string) :
  has_char "/" s = false -> Path.trailingSeparator s = false.
Proof.
  induction s as [|x s IH]; [reflexivity|].
  simpl has_char. intros H. apply orb_false_iff in H as [Hx Hs].
  simpl. destruct s; [assumption | now apply IH].
Qed.

Lemma prefix_app (a b : string) : String.prefix a (a ++ b) = true.
Proof.
  induction a as [|c a IH]; simpl; [now destruct b|].
  destruct (ascii_dec c c); congruence.
Qed.

(** ** [src/server.js]: what an upload does and when it throws *)
Section ServerUploadOutcome.
Import Path Server.
Variable dirname : string.

Lemma is_directory_add_dir (dirs : list string) (q p : string) :
  is_directory dirs p = true -> is_directory (add_dir dirs q) p = true.
Proof.
  unfold add_dir. destruct (is_directory dirs q); [auto|].
  unfold is_directory. rewrite existsb_app.
  intros H. apply orb_true_iff in H as [H|H]; [now rewrite H|].
  rewrite H. now rewrite !orb_true_r.
Qed.

Lemma is_directory_add_dir_same (dirs : list string) (p : string) :
  is_directory (add_dir dirs p) p = true.
Proof.
  unfold add_dir. destruct (is_directory dirs p) eqn:E; [assumption|].
  unfold is_directory. rewrite existsb_app. simpl.
  rewrite String.eqb_refl. now rewrite !orb_true_r.
Qed.

Lemma is_directory_fold_keep (l dirs : list string) (p : string) :
  is_directory dirs p = true -> is_directory (fold_left add_dir l dirs) p = true.
Proof.
  revert dirs. induction l as [|q l IH]; simpl; [auto|].
  intros dirs H. apply IH. now apply is_directory_add_dir.
Qed.

Lemma is_directory_fold_In (l dirs : list string) (p : string) :
  In p l -> is_directory (fold_left add_dir l dirs) p = true.
Proof.
  revert dirs. induction l as [|q l IH]; simpl; [tauto|].
  intros dirs [->|Hin]; [|now apply IH].
  apply is_directory_fold_keep, is_directory_add_dir_same.
Qed.

(** After the handler has made sure of the uploads directory, a directory is
    there unless a regular file holds its place. *)
Lemma ensure_uploads_dir_Ok (s : state) (dirs : list string) :
  ensure_uploads_dir dirname s = Ok dirs ->
  (dirs = fs_dirs s /\ existsSync s (uploads_dir dirname) = true) \/
  (existsSync s (uploads_dir dirname) = false /\
   is_directory dirs (uploads_dir dirname) = true).
Proof.
  unfold ensure_uploads_dir, mkdirSync_recursive.
  destruct (existsSync s (uploads_dir dirname)) eqn:E.
  - intros [= <-]. auto.
  - destruct (has_char "000" (uploads_dir dirname)); [discriminate|].
    destruct (existsb _ _); [discriminate|].
    intros [= <-]. right. split; [reflexivity|].
    apply is_directory_fold_In. simpl. apply in_or_app. right. now left.
Qed.

Lemma ensure_uploads_dir_directory (s : state) (dirs : list string) :
  assoc_has (uploads_dir dirname) (fs_files s) = false ->
  ensure_uploads_dir dirname s = Ok dirs ->
  is_directory dirs (uploads_dir dirname) = true.
Proof.
  intros Hf H. apply ensure_uploads_dir_Ok in H as [[-> E]|[_ E]]; [|assumption].
  unfold existsSync in E. rewrite Hf in E. now rewrite orb_false_r in E.
Qed.

Lemma upload_path_empty : upload_path dirname "" = uploads_dir dirname.
Proof.
  unfold upload_path, uploads_dir, join. simpl.
  destruct (negb (String.eqb dirname "")); reflexivity.
Qed.

Lemma upload_path_dot : upload_path dirname "." = uploads_dir dirname.
Proof.
  destruct (String.eqb_spec dirname "") as [->|Hd]; [reflexivity|].
  rewrite uploads_dir_normal by assumption.
  unfold upload_path, join. simpl filter.
  destruct (String.eqb_spec dirname ""); [congruence|]. simpl negb. cbv iota.
  change (String.concat "/" [dirname; "public"; "uploads"; "."])
    with (dirname ++ String "/" "public/uploads/.")%string.
  rewrite (@normalize_below_dirname dirname "public/uploads/." ["public"] "uploads");
    auto; try discriminate.
Qed.

Lemma nth_error_split_comma (fd b64 : string) :
  nth_error (split_on "," fd) 1 = Some b64 -> has_char "," fd = true.
Proof.
  destruct (has_char "," fd) eqn:Hc; [reflexivity|].
  rewrite (split_on_no_sep "," fd Hc). discriminate.
Qed.

(** [upload-sponsor] runs to completion only on a payload with a string
    [fileName] and a string [fileData] that has a comma in it, and only when
    the path it writes does not end in a separator, is not a directory and
    lies in a directory that exists by then.  On every other payload the
    handler throws, with nothing around it to catch. *)
Theorem upload_sponsor_outcome (s : state) (sid : string) (data : value)
    (s' : state) (out : list message) :
  upload_sponsor dirname s sid data = Ok (s', out) ->
  exists fn fd,
    get_prop data "fileName" = Ok (VStr fn) /\
    get_prop data "fileData" = Ok (VStr fd) /\
    has_char "," fd = true /\
    trailingSeparator (upload_path dirname fn) = false /\
    is_directory (fs_dirs s') (upload_path dirname fn) = false /\
    is_directory (fs_dirs s') (parent (upload_path dirname fn)) = true /\
    assoc_has (upload_path dirname fn) (fs_files s') = true.
Proof.
  intros H.
  apply upload_sponsor_Ok in H
    as (fn & fd & b64 & dirs & files & Hfn & Hfd & Hb & _ & Hw & -> & ->).
  apply writeFileSync_Ok in Hw as (-> & _ & Ht & Hd & Hp).
  exists fn, fd. repeat split; auto.
  - eapply nth_error_split_comma; eauto.
  - simpl. unfold assoc_has. now rewrite assoc_get_set_same.
Qed.

(** A [fileName] of [''] or ['.'] names the uploads directory itself, so the
    write throws (EISDIR) and the handler with it, whatever [fileData] is:
    no file is written and no reply is sent.  (The one way out is a regular
    file sitting where the uploads directory should be.) *)
Theorem upload_sponsor_directory_name_throws (s : state) (sid : string)
    (fn : string) (fileData : value) :
  assoc_has (uploads_dir dirname) (fs_files s) = false ->
  fn = ""%string \/ fn = "."%string ->
  upload_sponsor dirname s sid
    (VObj [("fileName", VStr fn); ("fileData", fileData)]) = Throw.
Proof.
  intros Hf Hfn.
  destruct (upload_sponsor dirname s sid
              (VObj [("fileName", VStr fn); ("fileData", fileData)]))
    as [[s' out]|] eqn:E; [|reflexivity].
  exfalso.
  apply upload_sponsor_Ok in E
    as (fn' & fd & b64 & dirs & files & Hfn' & _ & _ & Hd & Hw & _ & _).
  injection Hfn' as <-.
  apply writeFileSync_Ok in Hw as (_ & _ & _ & Hdir & _).
  assert (upload_path dirname fn = uploads_dir dirname) as Hp
    by (destruct Hfn as [->| ->]; [apply upload_path_empty | apply upload_path_dot]).
  rewrite Hp, (ensure_uploads_dir_directory s Hf Hd) in Hdir. discriminate.
Qed.

(** A [fileName] that is a plain name (no ['/'], not empty, not ['.'] or
    ['..']) is written directly inside the uploads directory, at
    [uploads + '/' + fileName]. *)
Theorem upload_plain_name_stays_inside (fn : string) :
  dirname <> ""%string ->
  has_char "/" fn = false ->
  fn <> ""%string -> fn <> "."%string -> fn <> ".."%string ->
  upload_path dirname fn = (uploads_dir dirname ++ "/" ++ fn)%string /\
  inside (uploads_dir dirname) (upload_path dirname fn) = true.
Proof.
  intros Hd Hslash Hne Hdot Hdots.
  assert (upload_path dirname fn = (uploads_dir dirname ++ "/" ++ fn)%string) as Hpath.
  { rewrite uploads_dir_normal by assumption.
    unfold upload_path, join. simpl filter.
    destruct (String.eqb_spec dirname ""); [congruence|].
    destruct (String.eqb_spec fn ""); [congruence|]. simpl negb. cbv iota.
    change (String.concat "/" [dirname; "public"; "uploads"; fn])
      with (dirname ++ String "/" ("public/uploads" ++ String "/" fn))%string.
    rewrite (@normalize_below_dirname dirname
               ("public/uploads" ++ String "/" fn)%string ["public"; "uploads"] fn);
      auto.
    - now rewrite append_assoc.
    - destruct fn as [|c fn']; [congruence|].
      change (String "/" ("public/uploads" ++ String "/" (String c fn')))%string
        with ("/public/uploads/" ++ String c fn')%string.
      rewrite trailingSeparator_app. now apply trailingSeparator_no_slash.
    - intros flag st. rewrite split_on_app, (split_on_no_sep "/" fn Hslash).
      simpl. unfold push_segment.
      destruct (String.eqb_spec fn ""); [congruence|].
      destruct (String.eqb_spec fn "."); [congruence|].
      destruct (String.eqb_spec fn ".."); [congruence|]. reflexivity. }
  split; [assumption|].
  rewrite Hpath. unfold inside.
  rewrite <- (append_assoc (uploads_dir dirname) "/" fn), prefix_app.
  apply orb_true_r.
Qed.

End ServerUploadOutcome.

Lemma upload_sponsor_outcome_witness :
  exists fn fd,
    get_prop (VObj [("fileName", VStr "logo.png");
                    ("fileData", VStr "data:image/png;base64,AAAA")]) "fileName"
      = Ok (VStr fn) /\
    get_prop (VObj [("fileName", VStr "logo.png");
                    ("fileData", VStr "data:image/png;base64,AAAA")]) "fileData"
      = Ok (VStr fd) /\
    has_char "," fd = true /\
    Path.trailingSeparator (Server.upload_path "/srv/app" fn) = false /\
    Server.is_directory
      ["/srv"; "/srv/app"; "/srv/app/public"; "/srv/app/public/uploads"]
      (Server.upload_path "/srv/app" fn) = false /\
    Server.is_directory
      ["/srv"; "/srv/app"; "/srv/app/public"; "/srv/app/public/uploads"]
      (Path.parent (Server.upload_path "/srv/app" fn)) = true /\
    assoc_has (Server.upload_path "/srv/app" fn)
      [("/srv/app/public/uploads/logo.png", "AAAA"%string)] = true.
Proof.
  apply (@upload_sponsor_outcome "/srv/app" Server.init "control"
           (VObj [("fileName", VStr "logo.png");
                  ("fileData", VStr "data:image/png;base64,AAAA")])
           (Server.set_fs
              ["/srv"; "/srv/app"; "/srv/app/public"; "/srv/app/public/uploads"]
              [("/srv/app/public/uploads/logo.png", "AAAA"%string)] Server.init)
           [Msg (ToSocket "control") "sponsor-uploaded"
                (VObj [("url", VStr "/uploads/logo.png")])]).
  reflexivity.
Defined.

Lemma upload_sponsor_directory_name_throws_witness :
  Server.upload_sponsor "/srv/app" Server.init "control"
    (VObj [("fileName", VStr ""); ("fileData", VStr "data:image/png;base64,AAAA")])
  = Throw.
Proof.
  apply (@upload_sponsor_directory_name_throws "/srv/app" Server.init "control" ""
           (VStr "data:image/png;base64,AAAA")).
  - reflexivity.
  - now left.
Defined.

Lemma upload_plain_name_stays_inside_witness :
  Server.upload_path "/srv/app" "logo.png" =
    (Server.uploads_dir "/srv/app" ++ "/" ++ "logo.png")%string /\
  Path.inside (Server.uploads_dir "/srv/app") (Server.upload_path "/srv/app" "logo.png") = true.
Proof.
  apply (@upload_plain_name_stays_inside "/srv/app" "logo.png");
    try discriminate; reflexivity.
Defined.

(** ** [src/server.js]: the live selection and the stored frames over time *)
Section ServerTraces.
Import Server.
Variable dirname : string.

Lemma step_keeps_live (s : state) (e : event) (s' : state) (out : list message) :
  moves_live (current s) e = false ->
  step dirname s e = Ok (s', out) ->
  current s' = current s.
Proof.
  unfold current.
  destruct e; simpl; intros Hm;
    unfold connection, register_mobile_device, camera_stream, update_sponsors,
      update_display_settings, update_mobile_settings, disconnect.
  - intros [= <- <-]; reflexivity.
  - destruct (get_prop data "name"); simpl; [|discriminate].
    intros [= <- <-]; reflexivity.
  - intros [= <- <-]; reflexivity.
  - discriminate.
  - intros [= <- <-]; reflexivity.
  - destruct (get_prop settings "margins"); simpl; [|discriminate].
    destruct (get_prop settings "colors"); simpl; [|discriminate].
    intros [= <- <-]; reflexivity.
  - intros [= <- <-]; reflexivity.
  - intros H. apply upload_sponsor_Ok in H
      as (? & ? & ? & ? & ? & _ & _ & _ & _ & _ & -> & ->).
    reflexivity.
  - simpl. rewrite Hm. intros [= <- <-]; reflexivity.
Qed.

(** The live selection stays where it is under every run of events that
    holds no [go-live] and no disconnect of the live socket itself: frames,
    registrations, settings and sponsor traffic and other sockets coming and
    going never move it.  So the frames of the live socket keep reaching the
    arena after such a run. *)
Theorem live_selection_stable (es : list event) (s s' : state) (out : list message) :
  (forall e, In e es -> moves_live (current s) e = false) ->
  run dirname s es = Ok (s', out) ->
  current s' = current s /\
  forall sid data,
    current s = VStr sid ->
    exists s'',
      camera_stream s' sid data =
        Ok (s'', [Msg ToAll "preview-update" (VObj [("id", VStr sid); ("stream", data)]);
                  Msg ToAll "arena-update" (VObj [("stream", data)])]).
Proof.
  intros Hes Hrun.
  assert (current s' = current s) as Hcur.
  { revert s out Hes Hrun. induction es as [|e es IH]; simpl; intros s out Hes.
    - intros [= <- <-]; reflexivity.
    - destruct (step dirname s e) as [[s1 out1]|] eqn:E1; simpl; [|discriminate].
      destruct (run dirname s1 es) as [[s2 out2]|] eqn:E2; simpl; [|discriminate].
      intros [= <- <-].
      assert (current s1 = current s) as H1
        by (eapply step_keeps_live; eauto).
      rewrite <- H1. eapply IH; eauto. intros e' He'. rewrite H1. auto. }
  split; [assumption|].
  intros sid data Hlive. unfold camera_stream.
  unfold current in *. rewrite Hcur, Hlive. simpl. rewrite String.eqb_refl. eauto.
Qed.

Lemma step_keeps_stream (s : state) (e : event) (s' : state) (out : list message)
    (sid : string) :
  sender e <> sid ->
  step dirname s e = Ok (s', out) ->
  assoc_get sid (streams s') = assoc_get sid (streams s).
Proof.
  destruct e; simpl; intros Hs;
    unfold connection, register_mobile_device, camera_stream, go_live, update_sponsors,
      update_display_settings, update_mobile_settings, disconnect.
  - intros [= <- <-]; reflexivity.
  - destruct (get_prop data "name"); simpl; [|discriminate].
    intros [= <- <-]; reflexivity.
  - intros [= <- <-]. simpl. apply assoc_get_set_other. congruence.
  - intros [= <- <-]; reflexivity.
  - intros [= <- <-]; reflexivity.
  - destruct (get_prop settings "margins"); simpl; [|discriminate].
    destruct (get_prop settings "colors"); simpl; [|discriminate].
    intros [= <- <-]; reflexivity.
  - intros [= <- <-]; reflexivity.
  - intros H. apply upload_sponsor_Ok in H
      as (? & ? & ? & ? & ? & _ & _ & _ & _ & _ & -> & ->).
    reflexivity.
  - simpl. destruct (strict_eq_str _ _); intros [= <- <-]; simpl;
      apply assoc_get_del_other; congruence.
Qed.

Lemma run_keeps_stream (es : list event) (s s' : state) (out : list message)
    (sid : string) :
  (forall e, In e es -> sender e <> sid) ->
  run dirname s es = Ok (s', out) ->
  assoc_get sid (streams s') = assoc_get sid (streams s).
Proof.
  revert s out. induction es as [|e es IH]; simpl; intros s out Hes.
  - intros [= <- <-]; reflexivity.
  - destruct (step dirname s e) as [[s1 out1]|] eqn:E1; simpl; [|discriminate].
    destruct (run dirname s1 es) as [[s2 out2]|] eqn:E2; simpl; [|discriminate].
    intros [= <- <-].
    rewrite (IH s1 out2) by auto.
    eapply step_keeps_stream; eauto.
Qed.

(** [go-live] shows the target's most recent frame: after a (truthy) frame
    from socket [sid], whatever the other sockets do in between, a
    [go-live] for [sid] sends exactly that frame to the arena and makes
    [sid] the live selection. *)
Theorem go_live_sends_latest_frame
    (s : state) (sid : string) (data : value) (es : list event)
    (s1 : state) (out1 : list message) (c : string) :
  truthy data = true ->
  (forall e, In e es -> sender e <> sid) ->
  run dirname s (CameraStream sid data :: es) = Ok (s1, out1) ->
  exists s2,
    go_live s1 c (VStr sid) =
      Ok (s2, [Msg ToAll "arena-update" (VObj [("stream", data)]);
               Msg ToAll "live-device-changed" (VStr sid)]) /\
    current s2 = VStr sid.
Proof.
  intros Ht Hes. simpl.
  destruct (run dirname _ es) as [[s2 out2]|] eqn:E2; simpl; [|discriminate].
  intros [= <- <-].
  pose proof (run_keeps_stream _ _ Hes E2) as Hget. simpl in Hget.
  rewrite assoc_get_set_same in Hget.
  unfold go_live, stored_stream. simpl. rewrite Hget, Ht. simpl. eauto.
Qed.

End ServerTraces.

Lemma live_selection_stable_witness :
  exists s' out,
    Server.run "/srv"
      (Server.set_sockets ["phone"]
         (Server.set_activeLiveDevice (VStr "phone") Server.init))
      [Server.Connection "other"; Server.CameraStream "phone" (VStr "frameB");
       Server.Disconnect "other"] = Ok (s', out) /\
    Server.current s' = VStr "phone".
Proof.
  eexists _, _. split; [reflexivity|].
  refine (proj1 (@live_selection_stable "/srv"
                   [Server.Connection "other"; Server.CameraStream "phone" (VStr "frameB");
                    Server.Disconnect "other"]
                   (Server.set_sockets ["phone"]
                      (Server.set_activeLiveDevice (VStr "phone") Server.init))
                   _ _ _ eq_refl)).
  intros e [<-|[<-|[<-|[]]]]; reflexivity.
Defined.

Lemma go_live_sends_latest_frame_witness :
  exists s2,
    Server.go_live
      (Server.set_streams [("phone", VStr "frameA")]
         (Server.set_sockets ["phone"; "control"] Server.init))
      "control" (VStr "phone") =
      Ok (s2, [Msg ToAll "arena-update" (VObj [("stream", VStr "frameA")]);
               Msg ToAll "live-device-changed" (VStr "phone")]) /\
    Server.current s2 = VStr "phone".
Proof.
  apply (@go_live_sends_latest_frame "/srv"
           (Server.set_sockets ["phone"] Server.init) "phone" (VStr "frameA")
           [Server.Connection "control"] _
           [Msg ToAll "preview-update" (VObj [("id", VStr "phone"); ("stream", VStr "frameA")]);
            Msg (ToSocket "control") "initial-settings"
                (Server.settings_snapshot Server.init)]
           "control").
  - reflexivity.
  - intros e [<-|[]]. discriminate.
  - reflexivity.
Defined.

(** ** [src/server.js]: invariants of the running server *)
Section ServerInvariants.
Import Server.
Variable dirname : string.

Lemma In_existsb_eqb (x : string) (l : list string) :
  existsb (String.eqb x) l = true <-> In x l.
Proof.
  rewrite existsb_exists. split.
  - intros (y & Hy & E). apply String.eqb_eq in E. now subst.
  - intros H. exists x. split; [assumption | apply String.eqb_refl].
Qed.

Lemma In_add_socket_keep (sid x : string) (l : list string) :
  In x l -> In x (add_socket sid l).
Proof.
  unfold add_socket. destruct (existsb _ l); [auto|].
  intros H. apply in_or_app. now left.
Qed.

Lemma In_remove_socket (sid x : string) (l : list string) :
  In x (remove_socket sid l) <-> In x l /\ x <> sid.
Proof.
  unfold remove_socket. rewrite filter_In, negb_true_iff, String.eqb_neq.
  split; intros [H1 H2]; split; auto.
Qed.

Lemma spread_keeps_keys (acc : list (string * value)) (v : value) (k : string) :
  In k (keys acc) -> In k (keys (spread acc v)).
Proof.
  unfold spread. generalize (own_props v) as props.
  intros props. revert acc. induction props as [|[k' v'] props IH]; simpl; auto.
  intros acc Hin. apply IH. now apply In_keys_set_keep.
Qed.

Lemma spread_copies_keys (acc props : list (string * value)) (k : string) :
  In k (keys props) -> In k (keys (spread acc (VObj props))).
Proof.
  unfold spread. simpl. revert acc.
  induction props as [|[k' v'] props IH]; simpl; [tauto|].
  intros acc [->|Hin]; [|now apply IH].
  apply (spread_keeps_keys _ (VObj props)).
  apply assoc_get_In. rewrite assoc_get_set_same. discriminate.
Qed.

Lemma step_settings_well_shaped (s : state) (e : event) (s' : state) (out : list message) :
  settings_well_shaped s -> step dirname s e = Ok (s', out) -> settings_well_shaped s'.
Proof.
  intros [(m & c & Hd & Hm & Hc) Hmob].
  destruct e; simpl;
    unfold connection, register_mobile_device, camera_stream, go_live, update_sponsors,
      update_display_settings, update_mobile_settings, disconnect.
  - intros [= <- <-]. split; eauto.
  - destruct (get_prop data "name"); simpl; [|discriminate].
    intros [= <- <-]. split; eauto.
  - intros [= <- <-]. split; eauto.
  - intros [= <- <-]. split; eauto.
  - intros [= <- <-]. split; eauto.
  - destruct (get_prop settings "margins") as [m'|]; simpl; [|discriminate].
    destruct (get_prop settings "colors") as [c'|]; simpl; [|discriminate].
    intros [= <- <-]. split; [|assumption]. simpl. rewrite Hd.
    destruct (truthy m') eqn:Tm; destruct (truthy c') eqn:Tc; simpl; eauto 10.
  - intros [= <- <-]. split; [eauto|]. simpl.
    intros k Hk. apply spread_keeps_keys, spread_copies_keys. auto.
  - intros H. apply upload_sponsor_Ok in H
      as (? & ? & ? & ? & ? & _ & _ & _ & _ & _ & -> & ->).
    split; eauto.
  - simpl. destruct (strict_eq_str _ _); intros [= <- <-]; split; eauto.
Qed.

(** However clients update the settings, the display store always holds
    exactly [margins] and [colors], both truthy (a falsy [margins] or
    [colors] in an update is skipped), and the mobile store never loses one
    of its three default keys.  This is what [GET /api/settings] answers
    with. *)
Theorem settings_always_well_shaped (s : state) :
  served dirname s ->
  exists margins colors,
    api_settings s =
      VObj [("display", VObj [("margins", margins); ("colors", colors)]);
            ("mobile", VObj (mobileSettings s))] /\
    truthy margins = true /\ truthy colors = true /\
    incl ["cameraFlip"; "demoMode"; "mainboardPopup"] (keys (mobileSettings s)).
Proof.
  intros Hs.
  assert (settings_well_shaped s) as [(m & c & Hd & Hm & Hc) Hmob].
  { induction Hs as [|s e s' out Hs IH Hdel Hstep].
    - split; [|apply incl_refl]. eexists _, _. repeat split; reflexivity.
    - eapply step_settings_well_shaped; eauto. }
  exists m, c. unfold api_settings. rewrite Hd. auto.
Qed.

Lemma step_streams_of_connected (s : state) (e : event) (s' : state) (out : list message) :
  streams_of_connected s -> deliverable s e = true ->
  step dirname s e = Ok (s', out) -> streams_of_connected s'.
Proof.
  intros [Hnd Hsub].
  destruct e; simpl; intros Hdel;
    unfold connection, register_mobile_device, camera_stream, go_live, update_sponsors,
      update_display_settings, update_mobile_settings, disconnect.
  - intros [= <- <-]. split; simpl; [assumption|].
    intros k Hk. apply In_add_socket_keep. auto.
  - destruct (get_prop data "name"); simpl; [|discriminate].
    intros [= <- <-]. split; auto.
  - intros [= <- <-]. split; simpl; [now apply NoDup_keys_set|].
    intros k Hk. apply In_keys_set in Hk as [->|Hk]; [|auto].
    now apply In_existsb_eqb.
  - intros [= <- <-]. split; auto.
  - intros [= <- <-]. split; auto.
  - destruct (get_prop settings "margins"); simpl; [|discriminate].
    destruct (get_prop settings "colors"); simpl; [|discriminate].
    intros [= <- <-]. split; auto.
  - intros [= <- <-]. split; auto.
  - intros H. apply upload_sponsor_Ok in H
      as (? & ? & ? & ? & ? & _ & _ & _ & _ & _ & -> & ->).
    split; auto.
  - simpl. destruct (strict_eq_str _ _); intros [= <- <-]; simpl;
      (split; [now apply NoDup_keys_del|]);
      intros k Hk; apply In_keys_del in Hk as [Hk Hne]; auto;
      apply In_remove_socket; auto.
Qed.

(** The running server keeps no frame of a socket that is gone: for a socket
    that is not connected (any more) there is nothing on record, so a
    [go-live] naming it sends no frame to the arena, yet still announces it
    as live to everyone. *)
Theorem no_frame_kept_after_disconnect (s : state) (sid c : string) :
  served dirname s ->
  ~ In sid (sockets s) ->
  stored_stream s (VStr sid) = VUndefined /\
  go_live s c (VStr sid) =
    Ok (set_activeLiveDevice (VStr sid) s,
        [Msg ToAll "live-device-changed" (VStr sid)]).
Proof.
  intros Hs Hgone.
  assert (streams_of_connected s) as [Hnd Hsub].
  { clear Hgone. induction Hs as [|s e s' out Hs IH Hdel Hstep].
    - split; [constructor | intros k []].
    - eapply step_streams_of_connected; eauto. }
  assert (assoc_get sid (streams s) = None) as Hnone.
  { apply assoc_get_None. intros Hin. auto. }
  unfold go_live, stored_stream. simpl. rewrite Hnone. auto.
Qed.

End ServerInvariants.

Lemma settings_always_well_shaped_witness :
  exists s out,
    Server.run "/srv" Server.init
      [Server.Connection "control";
       Server.UpdateDisplaySettings "control"
         (VObj [("colors", VObj [("background", VStr "#111")]); ("margins", VNum 0)]);
       Server.UpdateMobileSettings "control"
         (VObj [("demoMode", VBool true); ("zoom", VNum 2)])] = Ok (s, out) /\
    Server.displaySettings s <> Server.displaySettings Server.init /\
    Server.mobileSettings s <> Server.mobileSettings Server.init /\
    exists margins colors,
      Server.api_settings s =
        VObj [("display", VObj [("margins", margins); ("colors", colors)]);
              ("mobile", VObj (Server.mobileSettings s))] /\
      truthy margins = true /\ truthy colors = true /\
      incl ["cameraFlip"; "demoMode"; "mainboardPopup"]
           (keys (Server.mobileSettings s)).
Proof.
  eexists _, _. split; [reflexivity|].
  split; [discriminate|]. split; [discriminate|].
  apply (@settings_always_well_shaped "/srv").
  eapply Server.served_step
    with (e := Server.UpdateMobileSettings "control"
                 (VObj [("demoMode", VBool true); ("zoom", VNum 2)]))
         (s := Server.set_displaySettings
                 [("margins", VObj [("left", VNum 0); ("right", VNum 0);
                                    ("top", VNum 0); ("bottom", VNum 0)]);
                  ("colors", VObj [("background", VStr "#111")])]
                 (Server.set_sockets ["control"] Server.init));
    [|reflexivity|reflexivity].
  eapply Server.served_step
    with (e := Server.UpdateDisplaySettings "control"
                 (VObj [("colors", VObj [("background", VStr "#111")]);
                        ("margins", VNum 0)]))
         (s := Server.set_sockets ["control"] Server.init);
    [|reflexivity|reflexivity].
  eapply Server.served_step with (e := Server.Connection "control") (s := Server.init);
    [|reflexivity|reflexivity].
  exact (Server.served_init "/srv" [] []).
Defined.

Lemma no_frame_kept_after_disconnect_witness :
  exists s out,
    Server.run "/srv" Server.init
      [Server.Connection "phone"; Server.CameraStream "phone" (VStr "frameA");
       Server.Disconnect "phone"] = Ok (s, out) /\
    Server.stored_stream s (VStr "phone") = VUndefined /\
    Server.go_live s "control" (VStr "phone") =
      Ok (Server.set_activeLiveDevice (VStr "phone") s,
          [Msg ToAll "live-device-changed" (VStr "phone")]).
Proof.
  eexists _, _. split; [reflexivity|].
  apply (@no_frame_kept_after_disconnect "/srv").
  - eapply Server.served_step
      with (e := Server.Disconnect "phone")
           (s := Server.set_streams [("phone", VStr "frameA")]
                   (Server.set_sockets ["phone"] Server.init));
      [|reflexivity|reflexivity].
    eapply Server.served_step
      with (e := Server.CameraStream "phone" (VStr "frameA"))
           (s := Server.set_sockets ["phone"] Server.init);
      [|reflexivity|reflexivity].
    eapply Server.served_step with (e := Server.Connection "phone") (s := Server.init);
      [|reflexivity|reflexivity].
    exact (Server.served_init "/srv" [] []).
  - simpl. tauto.
Defined.

(** ** The server of [src/setup.js]: rooms, registry and previews over time *)
Section SetupTraces.
Import Setup.

Ltac unfold_handlers :=
  unfold connection, control_room_connected, arena_display_connected,
    register_mobile_device, camera_access_approved, preview_update, go_live,
    disconnect, join.

Lemma In_rooms_in_room (room sid : string) (rs : list (string * string)) :
  In (room, sid) rs -> in_room room sid rs = true.
Proof.
  intros Hin. unfold in_room. apply orb_true_iff. right.
  apply existsb_exists. exists (room, sid). simpl.
  now rewrite !String.eqb_refl.
Qed.

(** A socket stays connected and in its rooms under every event but its own
    disconnect. *)
Lemma step_keeps_membership (s : state) (e : event) (s' : state) (out : list message)
    (room sid : string) :
  e <> Disconnect sid ->
  In sid (sockets s) /\ In (room, sid) (rooms s) ->
  step s e = Ok (s', out) ->
  In sid (sockets s') /\ In (room, sid) (rooms s').
Proof.
  intros Hne [Hs Hr]. destruct e; simpl; unfold_handlers.
  - intros [= <- <-]. simpl. split; [now apply In_add_socket_keep | assumption].
  - intros [= <- <-]. destruct (existsb _ (rooms s)); simpl; split; auto.
    apply in_or_app. now left.
  - intros [= <- <-]. destruct (existsb _ (rooms s)); simpl; split; auto.
    apply in_or_app. now left.
  - destruct (get_prop deviceInfo "name"); simpl; [|discriminate].
    intros [= <- <-]. simpl. auto.
  - intros [= <- <-]. auto.
  - destruct (assoc_get sid0 (connectedDevices s)); intros [= <- <-]; simpl; auto.
  - destruct (map_get deviceId (connectedDevices s)); [destruct (truthy _)|];
      intros [= <- <-]; auto.
  - assert (sid <> sid0) as Hdiff by congruence.
    simpl. destruct (assoc_has sid0 (connectedDevices s)); intros [= <- <-]; simpl;
      (split; [apply In_remove_socket; auto|]);
      apply filter_In; (split; [assumption|]); simpl;
      apply negb_true_iff, String.eqb_neq; congruence.
Qed.

Lemma run_keeps_membership (es : list event) (s s' : state) (out : list message)
    (room sid : string) :
  (forall e, In e es -> e <> Disconnect sid) ->
  In sid (sockets s) /\ In (room, sid) (rooms s) ->
  run s es = Ok (s', out) ->
  In sid (sockets s') /\ In (room, sid) (rooms s').
Proof.
  revert s out. induction es as [|e es IH]; simpl; intros s out Hes Hin.
  - intros [= <- <-]; assumption.
  - destruct (step s e) as [[s1 out1]|] eqn:E1; simpl; [|discriminate].
    destruct (run s1 es) as [[s2 out2]|] eqn:E2; simpl; [|discriminate].
    intros [= <- <-]. apply (IH s1 out2); auto.
    eapply step_keeps_membership; eauto.
Qed.

Lemma join_In (room sid : string) (s : state) : In (room, sid) (rooms (join room sid s)).
Proof.
  unfold join.
  destruct (existsb _ (rooms s)) eqn:E; simpl.
  - apply existsb_exists in E as ([r k] & Hin & Heq). simpl in Heq.
    apply andb_true_iff in Heq as [E1 E2].
    apply String.eqb_eq in E1, E2. now subst.
  - apply in_or_app. right. now left.
Qed.

(** Once a connected socket has announced itself as arena display (or as
    control room), it is among the recipients of every later broadcast to
    that room, whatever else happens, until it disconnects. *)
Theorem announced_socket_keeps_receiving
    (sid : string) (es : list event) (s : state) :
  In sid (sockets s) ->
  (forall e, In e es -> e <> Disconnect sid) ->
  (forall s' out,
      run s (ArenaDisplayConnected sid :: es) = Ok (s', out) ->
      In sid (recipients (sockets s') (rooms s') (ToRoom "arena-display"))) /\
  (forall s' out,
      run s (ControlRoomConnected sid :: es) = Ok (s', out) ->
      In sid (recipients (sockets s') (rooms s') (ToRoom "control-room"))).
Proof.
  intros Hs Hes.
  assert (forall room s' out,
             run (join room sid s) es = Ok (s', out) ->
             In sid (recipients (sockets s') (rooms s') (ToRoom room))) as Hroom.
  { intros room s' out Hrun.
    destruct (@run_keeps_membership es (join room sid s) s' out room sid Hes) as [H1 H2];
      auto.
    - split; [|apply join_In]. unfold join. destruct (existsb _ (rooms s)); auto.
    - simpl. apply filter_In. split; [assumption | now apply In_rooms_in_room]. }
  split; intros s' out; simpl; unfold arena_display_connected, control_room_connected;
    simpl;
    destruct (run (join _ sid s) es) as [[s2 out2]|] eqn:E2; simpl; try discriminate;
    intros [= <- <-]; eapply Hroom; eauto.
Qed.

Lemma announced_socket_keeps_receiving_witness :
  (forall s' out,
      run (set_sockets ["screen"] init)
          (ArenaDisplayConnected "screen" ::
           [Connection "m1"; RegisterMobileDevice "m1" (VObj []); Disconnect "m1"])
        = Ok (s', out) ->
      In "screen" (recipients (sockets s') (rooms s') (ToRoom "arena-display"))) /\
  (forall s' out,
      run (set_sockets ["screen"] init)
          (ControlRoomConnected "screen" ::
           [Connection "m1"; RegisterMobileDevice "m1" (VObj []); Disconnect "m1"])
        = Ok (s', out) ->
      In "screen" (recipients (sockets s') (rooms s') (ToRoom "control-room"))).
Proof.
  apply (@announced_socket_keeps_receiving "screen"
           [Connection "m1"; RegisterMobileDevice "m1" (VObj []); Disconnect "m1"]
           (set_sockets ["screen"] init)).
  - simpl. auto.
  - intros e [<-|[<-|[<-|[]]]]; discriminate.
Defined.

Lemma step_registry_of_connected (s : state) (e : event) (s' : state) (out : list message) :
  registry_of_connected s -> deliverable s e = true ->
  step s e = Ok (s', out) -> registry_of_connected s'.
Proof.
  intros (Hnd & Hk & Hr). destruct e; simpl; intros Hdel; unfold_handlers.
  - intros [= <- <-]. simpl. repeat split; auto.
    + intros k H. apply In_add_socket_keep. auto.
    + intros room k H. apply In_add_socket_keep. eauto.
  - apply In_existsb_eqb in Hdel.
    intros [= <- <-]. destruct (existsb _ (rooms s)); simpl; repeat split; auto.
    intros room k H. apply in_app_or in H as [H|[[= <- <-]|[]]]; eauto.
  - apply In_existsb_eqb in Hdel.
    intros [= <- <-]. destruct (existsb _ (rooms s)); simpl; repeat split; auto.
    intros room k H. apply in_app_or in H as [H|[[= <- <-]|[]]]; eauto.
  - apply In_existsb_eqb in Hdel.
    destruct (get_prop deviceInfo "name"); simpl; [|discriminate].
    intros [= <- <-]. simpl. repeat split; auto.
    + now apply NoDup_keys_set.
    + intros k H. apply In_keys_set in H as [->|H]; auto.
  - intros [= <- <-]. repeat split; auto.
  - destruct (assoc_get sid (connectedDevices s)) eqn:E; intros [= <- <-];
      simpl; repeat split; auto.
    + now apply NoDup_keys_set.
    + intros k H. apply In_keys_set in H as [->|H]; auto.
      apply Hk. apply assoc_get_In. congruence.
  - destruct (map_get deviceId (connectedDevices s)); [destruct (truthy _)|];
      intros [= <- <-]; repeat split; auto.
  - simpl. destruct (assoc_has sid (connectedDevices s)) eqn:Ehas;
      intros [= <- <-]; simpl; repeat split; auto.
    + now apply NoDup_keys_del.
    + intros k H. apply In_keys_del in H as [H Hne]; auto.
      apply In_remove_socket. auto.
    + intros room k H. apply filter_In in H as [H Hne]. simpl in Hne.
      apply negb_true_iff, String.eqb_neq in Hne.
      apply In_remove_socket. split; [eauto | congruence].
    + intros k H. apply In_remove_socket. split; [auto|].
      intros ->. apply assoc_get_In in H. unfold assoc_has in Ehas. simpl in H.
      destruct (assoc_get sid (connectedDevices s)); congruence.
    + intros room k H. apply filter_In in H as [H Hne]. simpl in Hne.
      apply negb_true_iff, String.eqb_neq in Hne.
      apply In_remove_socket. split; [eauto | congruence].
Qed.

(** Nothing of a socket that is gone stays behind in the running server: no
    registry entry (so the device list does not show it) and no room
    membership. *)
Theorem nothing_kept_of_gone_socket (s : state) (sid : string) :
  served s ->
  ~ In sid (sockets s) ->
  assoc_get sid (connectedDevices s) = None /\
  ~ In (VStr sid) (listed_ids s) /\
  forall room, ~ In (room, sid) (rooms s).
Proof.
  intros Hs Hgone.
  assert (registry_of_connected s) as (Hnd & Hk & Hr).
  { clear Hgone. induction Hs as [|s e s' out Hs IH Hdel Hstep].
    - repeat split; simpl; [constructor | tauto | tauto].
    - eapply step_registry_of_connected; eauto. }
  assert (~ In sid (keys (connectedDevices s))) as Hnot by auto.
  repeat split.
  - now apply assoc_get_None.
  - rewrite listed_ids_keys. intros Hin.
    apply in_map_iff in Hin as (k & [= ->] & Hin). auto.
  - intros room Hin. eauto.
Qed.

Lemma nothing_kept_of_gone_socket_witness :
  exists s out,
    run init [Connection "m1"; ControlRoomConnected "m1";
              RegisterMobileDevice "m1" (VObj []); Disconnect "m1"] = Ok (s, out) /\
    assoc_get "m1" (connectedDevices s) = None /\
    ~ In (VStr "m1") (listed_ids s) /\
    forall room, ~ In (room, "m1") (rooms s).
Proof.
  eexists _, _. split; [reflexivity|].
  apply nothing_kept_of_gone_socket.
  - eapply served_step
      with (e := Disconnect "m1")
           (s := {| connectedDevices :=
                      [("m1", {| type := "mobile"; name := VStr "Phone 1"; preview := VNull |})];
                    sockets := ["m1"]; rooms := [("control-room", "m1")] |});
      [|reflexivity|reflexivity].
    eapply served_step
      with (e := RegisterMobileDevice "m1" (VObj []))
           (s := {| connectedDevices := []; sockets := ["m1"];
                    rooms := [("control-room", "m1")] |});
      [|reflexivity|reflexivity].
    eapply served_step
      with (e := ControlRoomConnected "m1")
           (s := {| connectedDevices := []; sockets := ["m1"]; rooms := [] |});
      [|reflexivity|reflexivity].
    eapply served_step with (e := Connection "m1") (s := init);
      [|reflexivity|reflexivity].
    apply served_init.
  - simpl. tauto.
Defined.

Lemma step_keeps_device (s : state) (e : event) (s' : state) (out : list message)
    (sid : string) :
  sender e <> sid ->
  step s e = Ok (s', out) ->
  assoc_get sid (connectedDevices s') = assoc_get sid (connectedDevices s).
Proof.
  destruct e; simpl; intros Hne; unfold_handlers.
  - intros [= <- <-]; reflexivity.
  - intros [= <- <-]. destruct (existsb _ (rooms s)); reflexivity.
  - intros [= <- <-]. destruct (existsb _ (rooms s)); reflexivity.
  - destruct (get_prop deviceInfo "name"); simpl; [|discriminate].
    intros [= <- <-]. simpl. apply assoc_get_set_other. congruence.
  - intros [= <- <-]; reflexivity.
  - destruct (assoc_get sid0 (connectedDevices s)); intros [= <- <-]; simpl; auto.
    apply assoc_get_set_other. congruence.
  - destruct (map_get deviceId (connectedDevices s)); [destruct (truthy _)|];
      intros [= <- <-]; reflexivity.
  - simpl. destruct (assoc_has sid0 (connectedDevices s)); intros [= <- <-]; simpl; auto.
    apply assoc_get_del_other. congruence.
Qed.

Lemma run_keeps_device (es : list event) (s s' : state) (out : list message)
    (sid : string) :
  (forall e, In e es -> sender e <> sid) ->
  run s es = Ok (s', out) ->
  assoc_get sid (connectedDevices s') = assoc_get sid (connectedDevices s).
Proof.
  revert s out. induction es as [|e es IH]; simpl; intros s out Hes.
  - intros [= <- <-]; reflexivity.
  - destruct (step s e) as [[s1 out1]|] eqn:E1; simpl; [|discriminate].
    destruct (run s1 es) as [[s2 out2]|] eqn:E2; simpl; [|discriminate].
    intros [= <- <-]. rewrite (IH s1 out2) by auto.
    eapply step_keeps_device; eauto.
Qed.

(** [go-live] shows the target's most recent preview: after a (truthy)
    preview from a registered device, whatever other sockets do in between,
    a [go-live] for that device sends exactly this preview, with the fixed
    overlay, to the room ['arena-display'] and names the device in
    [device-is-live] to everyone. *)
Theorem go_live_shows_latest_preview
    (s : state) (sid : string) (imageData : value) (es : list event)
    (s1 : state) (out1 : list message) (c : string) :
  assoc_has sid (connectedDevices s) = true ->
  truthy imageData = true ->
  (forall e, In e es -> sender e <> sid) ->
  run s (PreviewUpdate sid imageData :: es) = Ok (s1, out1) ->
  go_live s1 c (VStr sid) =
    Ok (s1, [Msg (ToRoom "arena-display") "arena-display-update" (arena_frame imageData);
             Msg ToAll "device-is-live" (VStr sid)]).
Proof.
  intros Hhas Ht Hes. simpl. unfold preview_update, assoc_has in *.
  destruct (assoc_get sid (connectedDevices s)) as [dev|] eqn:Edev; [|discriminate].
  simpl.
  destruct (run _ es) as [[s2 out2]|] eqn:E2; simpl; [|discriminate].
  intros [= <- <-].
  pose proof (run_keeps_device _ _ Hes E2) as Hget. simpl in Hget.
  rewrite assoc_get_set_same in Hget.
  unfold go_live. simpl. rewrite Hget. simpl. rewrite Ht. reflexivity.
Qed.

Lemma go_live_shows_latest_preview_witness :
  go_live
    {| connectedDevices :=
         [("m1", {| type := "mobile"; name := VStr "Cowboy1"; preview := VStr "frameA" |})];
       sockets := ["m1"; "control"]; rooms := [] |}
    "control" (VStr "m1") =
    Ok ({| connectedDevices :=
             [("m1", {| type := "mobile"; name := VStr "Cowboy1"; preview := VStr "frameA" |})];
           sockets := ["m1"; "control"]; rooms := [] |},
        [Msg (ToRoom "arena-display") "arena-display-update" (arena_frame (VStr "frameA"));
         Msg ToAll "device-is-live" (VStr "m1")]).
Proof.
  apply (@go_live_shows_latest_preview
           {| connectedDevices :=
                [("m1", {| type := "mobile"; name := VStr "Cowboy1"; preview := VNull |})];
              sockets := ["m1"]; rooms := [] |}
           "m1" (VStr "frameA") [Connection "control"] _
           [Msg (ToRoom "control-room") "preview-update"
                (VObj [("deviceId", VStr "m1"); ("preview", VStr "frameA")])]
           "control").
  - reflexivity.
  - reflexivity.
  - intros e [<-|[]]. discriminate.
  - reflexivity.
Defined.

(** Registering wipes the stored preview: right after any registration of a
    socket, first or repeated, a [go-live] for it is ignored, until its next
    preview arrives. *)
Theorem registration_clears_preview
    (s : state) (sid c : string) (f : list (string * value)) :
  exists s1 out1,
    register_mobile_device s sid (VObj f) = Ok (s1, out1) /\
    has_preview s1 (VStr sid) = false /\
    go_live s1 c (VStr sid) = Ok (s1, []).
Proof.
  unfold register_mobile_device, get_prop, bind.
  eexists _, _. split; [reflexivity|].
  unfold has_preview, go_live. simpl.
  rewrite assoc_get_set_same. simpl. auto.
Qed.

(** No run of the server ever sends the arena a blank frame: every
    [arena-display-update] goes to the room ['arena-display'] and carries a
    truthy [content] with the fixed overlay. *)
Theorem arena_never_sent_blank_frame
    (es : list event) (s s' : state) (out : list message) (m : message) :
  run s es = Ok (s', out) ->
  In m (emitted "arena-display-update" out) ->
  target m = ToRoom "arena-display" /\
  exists content, payload m = arena_frame content /\ truthy content = true.
Proof.
  intros Hrun Hm. apply filter_In in Hm as [Hin Hev].
  revert s out Hrun Hin. induction es as [|e es IH]; simpl; intros s out.
  - intros [= <- <-] [].
  - destruct (step s e) as [[s1 out1]|] eqn:E1; simpl; [|discriminate].
    destruct (run s1 es) as [[s2 out2]|] eqn:E2; simpl; [|discriminate].
    intros [= <- <-] Hin. apply in_app_or in Hin as [Hin|Hin]; [|eauto].
    clear IH E2. destruct e; simpl in E1; revert E1; unfold_handlers.
    + intros [= <- <-]. destruct Hin.
    + intros [= <- <-]. destruct Hin as [<-|[]]. discriminate Hev.
    + intros [= <- <-]. destruct Hin.
    + destruct (get_prop deviceInfo "name"); simpl; [|discriminate].
      intros [= <- <-]. destruct Hin as [<-|[]]. discriminate Hev.
    + intros [= <- <-]. destruct Hin as [<-|[]]. discriminate Hev.
    + destruct (assoc_get sid (connectedDevices s)); intros [= <- <-].
      * destruct Hin as [<-|[]]. discriminate Hev.
      * destruct Hin.
    + destruct (map_get deviceId (connectedDevices s)) as [dev|];
        [destruct (truthy (preview dev)) eqn:T|]; intros [= <- <-].
      * destruct Hin as [<-|[<-|[]]]; [|discriminate Hev].
        split; [reflexivity|]. exists (preview dev). auto.
      * destruct Hin.
      * destruct Hin.
    + simpl. destruct (assoc_has sid (connectedDevices s)); intros [= <- <-].
      * destruct Hin as [<-|[]]. discriminate Hev.
      * destruct Hin.
Qed.

Lemma arena_never_sent_blank_frame_witness :
  target (Msg (ToRoom "arena-display") "arena-display-update" (arena_frame (VStr "frameA")))
    = ToRoom "arena-display" /\
  exists content,
    payload (Msg (ToRoom "arena-display") "arena-display-update" (arena_frame (VStr "frameA")))
      = arena_frame content /\
    truthy content = true.
Proof.
  apply (@arena_never_sent_blank_frame
           [GoLive "control" (VStr "m1")]
           {| connectedDevices :=
                [("m1", {| type := "mobile"; name := VStr "Cowboy1"; preview := VStr "frameA" |})];
              sockets := ["m1"; "control"]; rooms := [] |}
           _ _ _ eq_refl).
  left. reflexivity.
Defined.

End SetupTraces.

(** ** The server of [src/setup.js]: default labels *)
Section SetupLabels.
Import Setup.

Lemma length_set_absent (A : Type) (k : string) (v : A) (m : list (string * A)) :
  assoc_get k m = None -> List.length (assoc_set k v m) = S (List.length m).
Proof.
  intros H. rewrite <- (length_map fst (assoc_set k v m)).
  change (map fst (assoc_set k v m)) with (keys (assoc_set k v m)).
  rewrite keys_set_absent by assumption.
  unfold keys. rewrite length_app, length_map. simpl. lia.
Qed.

Lemma length_del_present (A : Type) (k : string) (m : list (string * A)) :
  assoc_has k m = true -> S (List.length (assoc_del k m)) = List.length m.
Proof.
  unfold assoc_has. induction m as [|[k' v'] rest IH]; simpl; [discriminate|].
  destruct (String.eqb k k'); simpl; [reflexivity|].
  intros H. now rewrite IH.
Qed.

(** The generated label is not a serial number: it is the registry size plus
    one, so it repeats.  When [b] registers without a name, then some other
    registered device [a] disconnects, and then [c] registers without a
    name, [b] and [c] are both stored under the same ["Phone N"]. *)
Theorem default_labels_can_repeat (s : state) (a b c : string) :
  assoc_has a (connectedDevices s) = true ->
  assoc_has b (connectedDevices s) = false ->
  assoc_has c (connectedDevices s) = false ->
  b <> c ->
  exists s3 out,
    run s [RegisterMobileDevice b (VObj []); Disconnect a;
           RegisterMobileDevice c (VObj [])] = Ok (s3, out) /\
    assoc_get b (connectedDevices s3) =
      Some {| type := "mobile"; name := phone_label (size s + 1); preview := VNull |} /\
    assoc_get c (connectedDevices s3) =
      Some {| type := "mobile"; name := phone_label (size s + 1); preview := VNull |}.
Proof.
  unfold assoc_has. intros Ha Hb Hc Hbc.
  destruct (assoc_get a (connectedDevices s)) as [da|] eqn:Ea; [|discriminate].
  destruct (assoc_get b (connectedDevices s)) eqn:Eb; [discriminate|].
  destruct (assoc_get c (connectedDevices s)) eqn:Ec; [discriminate|].
  assert (a <> b) as Hab by congruence.
  assert (a <> c) as Hac by congruence.
  set (db := {| type := "mobile"; name := phone_label (size s + 1); preview := VNull |}).
  assert (assoc_has a (assoc_set b db (connectedDevices s)) = true) as Ha1.
  { unfold assoc_has. rewrite assoc_get_set_other, Ea by assumption. reflexivity. }
  assert (List.length (assoc_del a (assoc_set b db (connectedDevices s))) = size s) as Hlen.
  { pose proof (length_del_present a _ Ha1) as H.
    rewrite length_set_absent in H by assumption. unfold size. lia. }
  cbn [run step bind fst snd]. unfold register_mobile_device at 1.
  cbn [get_prop bind assoc_get or_else truthy fst snd]. fold db.
  unfold disconnect. cbn [connectedDevices set_rooms set_sockets set_connectedDevices].
  rewrite Ha1. cbn [bind fst snd].
  unfold register_mobile_device.
  cbn [get_prop bind assoc_get or_else truthy fst snd].
  change (size (set_connectedDevices
                  (assoc_del a (assoc_set b db (connectedDevices s))) ?x))
    with (List.length (assoc_del a (assoc_set b db (connectedDevices s)))).
  rewrite Hlen.
  eexists _, _. split; [reflexivity|]. simpl. split.
  - rewrite assoc_get_set_other by assumption.
    rewrite assoc_get_del_other by congruence.
    apply assoc_get_set_same.
  - apply assoc_get_set_same.
Qed.

Lemma default_labels_can_repeat_witness :
  exists s3 out,
    run {| connectedDevices :=
             [("a", {| type := "mobile"; name := VStr "Phone 1"; preview := VNull |})];
           sockets := ["a"; "b"; "c"]; rooms := [] |}
        [RegisterMobileDevice "b" (VObj []); Disconnect "a";
         RegisterMobileDevice "c" (VObj [])] = Ok (s3, out) /\
    assoc_get "b" (connectedDevices s3) =
      Some {| type := "mobile"; name := phone_label (1 + 1); preview := VNull |} /\
    assoc_get "c" (connectedDevices s3) =
      Some {| type := "mobile"; name := phone_label (1 + 1); preview := VNull |}.
Proof.
  apply (@default_labels_can_repeat
           {| connectedDevices :=
                [("a", {| type := "mobile"; name := VStr "Phone 1"; preview := VNull |})];
              sockets := ["a"; "b"; "c"]; rooms := [] |} "a" "b" "c");
    try reflexivity. discriminate.
Defined.

End SetupLabels.

(** ** [public/js/control-room.js]: the preview grid and its counter *)
Section ControlRoomPage.
Import ControlRoom.

Lemma has_card_In (d : string) (p : page) : has_card d p = true <-> In d (shown p).
Proof.
  unfold has_card, shown. rewrite existsb_exists, in_map_iff. split.
  - intros (c & Hc & E). apply String.eqb_eq in E. eauto.
  - intros (c & E & Hc). exists c. split; [assumption|]. now apply String.eqb_eq.
Qed.

Lemma has_card_not_In (d : string) (p : page) : has_card d p = false <-> ~ In d (shown p).
Proof.
  rewrite <- has_card_In. destruct (has_card d p); split; congruence.
Qed.

Lemma update_card_devices (d : string) (f : card -> card) (l : list card) :
  (forall c, device (f c) = device c) ->
  map device (update_card d f l) = map device l.
Proof.
  intros Hf. induction l as [|c l IH]; simpl; [reflexivity|].
  destruct (String.eqb d (device c)); simpl; [now rewrite Hf | now rewrite IH].
Qed.

Lemma remove_card_incl (d : string) (l : list card) :
  incl (remove_card d l) l.
Proof.
  induction l as [|c l IH]; simpl; [apply incl_refl|].
  destruct (String.eqb d (device c)).
  - apply incl_tl, incl_refl.
  - apply incl_cons; [now left | now apply incl_tl].
Qed.

Lemma remove_card_NoDup (d : string) (l : list card) :
  NoDup (map device l) -> NoDup (map device (remove_card d l)).
Proof.
  induction l as [|c l IH]; simpl; [auto|].
  intros H. inversion H as [|? ? Hnin Hnd]; subst.
  destruct (String.eqb d (device c)); [assumption|].
  simpl. constructor; [|auto].
  intros Hin. apply Hnin. apply in_map_iff in Hin as (c' & E & Hc').
  apply in_map_iff. exists c'. split; [assumption|]. now apply remove_card_incl in Hc'.
Qed.

Lemma remove_card_gone (d : string) (l : list card) :
  NoDup (map device l) -> ~ In d (map device (remove_card d l)).
Proof.
  induction l as [|c l IH]; simpl; [auto|].
  intros H. inversion H as [|? ? Hnin Hnd]; subst.
  destruct (String.eqb_spec d (device c)) as [->|Hne]; [assumption|].
  simpl. intros [E|Hin]; [congruence | now apply IH].
Qed.

Lemma remove_card_length (d : string) (l : list card) :
  In d (map device l) -> S (List.length (remove_card d l)) = List.length l.
Proof.
  induction l as [|c l IH]; simpl; [tauto|].
  destruct (String.eqb_spec d (device c)) as [->|Hne]; [reflexivity|].
  intros [E|Hin]; [congruence|]. simpl. now rewrite IH.
Qed.

Lemma shown_addDevicePreview (d : string) (n pv : value) (p : page) :
  shown (addDevicePreview d n pv p) =
    if addresses_grid d || has_card d p then shown p else shown p ++ [d].
Proof.
  unfold addDevicePreview. destruct (addresses_grid d || has_card d p); [reflexivity|].
  unfold shown. simpl. now rewrite map_app.
Qed.

Lemma addDevicePreview_unique (d : string) (n pv : value) (p : page) :
  cards_unique p -> cards_unique (addDevicePreview d n pv p).
Proof.
  intros [Hnd Hg]. unfold cards_unique. rewrite shown_addDevicePreview.
  destruct (addresses_grid d) eqn:Eg; simpl; [auto|].
  destruct (has_card d p) eqn:Eh; [auto|].
  apply has_card_not_In in Eh. unfold addresses_grid in Eg.
  apply String.eqb_neq in Eg. split.
  - apply NoDup_app; [assumption | repeat constructor; auto |].
    intros x Hx [<-|[]]. auto.
  - intros Hin. apply in_app_or in Hin as [Hin|[E|[]]]; auto.
Qed.

Lemma handle_unique (p : page) (m : incoming) (p' : page) :
  cards_unique p -> handle p m = Some p' -> cards_unique p'.
Proof.
  intros Hu. destruct m; simpl.
  - intros [= <-].
    assert (cards_unique (updateDeviceCount (Z.of_nat (List.length devices)) p)) as H0
      by exact Hu.
    revert H0. generalize (updateDeviceCount (Z.of_nat (List.length devices)) p).
    induction devices as [|d ds IH]; simpl; auto.
    intros q Hq. apply IH. now apply addDevicePreview_unique.
  - intros [= <-]. now apply addDevicePreview_unique.
  - destruct (addresses_grid deviceId); [discriminate|].
    destruct (has_card deviceId p); intros [= <-]; [|assumption].
    destruct Hu as [Hnd Hg]. split; unfold shown; simpl.
    + now apply remove_card_NoDup.
    + intros Hin. apply Hg. apply in_map_iff in Hin as (c & E & Hc).
      apply in_map_iff. exists c. split; [assumption|].
      now apply remove_card_incl in Hc.
  - intros [= <-]. unfold updateDevicePreview.
    destruct (truthy preview0); [|assumption].
    unfold cards_unique, shown. simpl. now rewrite update_card_devices.
  - unfold updateLiveStatus.
    destruct (currentLiveDevice p) as [prev|];
      [destruct (String.eqb prev ""); [|destruct (addresses_grid prev); [discriminate|]]|];
      (destruct (addresses_grid deviceId); [discriminate|]);
      intros [= <-]; unfold cards_unique, shown; simpl;
      rewrite ?update_card_devices; auto.
Qed.

(** Whatever messages arrive, the grid holds at most one card per device
    (and none for the id ["grid"], which names the grid itself):
    [addDevicePreview] adds nothing for a device that is already shown. *)
Theorem preview_cards_stay_unique (ms : list incoming) (p' : page) :
  handle_all init ms = Some p' ->
  NoDup (shown p') /\ ~ In "grid"%string (shown p').
Proof.
  assert (cards_unique init) as H0 by (split; [constructor | intros []]).
  revert H0. generalize init. induction ms as [|m ms IH]; simpl; intros p Hp.
  - intros [= <-]. exact Hp.
  - destruct (handle p m) as [p1|] eqn:E; [|discriminate].
    apply IH. eapply handle_unique; eauto.
Qed.

Lemma preview_cards_stay_unique_witness :
  NoDup (shown {| cards := [{| device := "m1"; image := VStr "/images/waiting-for-preview.png";
                               label := VStr "Cowboy1"; live := false |}];
                  deviceCount := 2; currentLiveDevice := None |}) /\
  ~ In "grid"%string
       (shown {| cards := [{| device := "m1"; image := VStr "/images/waiting-for-preview.png";
                              label := VStr "Cowboy1"; live := false |}];
                 deviceCount := 2; currentLiveDevice := None |}).
Proof.
  apply (@preview_cards_stay_unique
           [DeviceConnected "m1" (VStr "Cowboy1"); DeviceConnected "m1" (VStr "Cowboy1")]).
  reflexivity.
Defined.

(** The counter after a disconnect is off by one: the script removes the
    card and then shows [previewGrid.children.length - 1], the number of
    cards left minus one.  When the last device leaves, it shows -1. *)
Theorem disconnect_counter_off_by_one (p : page) (d : string) :
  NoDup (shown p) ->
  addresses_grid d = false ->
  has_card d p = true ->
  exists p',
    handle p (DeviceDisconnected d) = Some p' /\
    has_card d p' = false /\
    S (List.length (cards p')) = List.length (cards p) /\
    deviceCount p' = (Z.of_nat (List.length (cards p')) - 1)%Z.
Proof.
  intros Hnd Hg Hc. simpl. rewrite Hg, Hc.
  eexists. split; [reflexivity|]. simpl. repeat split.
  - apply has_card_not_In. unfold shown. simpl. now apply remove_card_gone.
  - apply remove_card_length. now apply has_card_In.
Qed.

Lemma disconnect_counter_off_by_one_witness :
  exists p',
    handle {| cards := [{| device := "m1"; image := VStr "frameA";
                           label := VStr "Cowboy1"; live := false |}];
              deviceCount := 1; currentLiveDevice := None |}
           (DeviceDisconnected "m1") = Some p' /\
    has_card "m1" p' = false /\
    S (List.length (cards p')) = 1 /\
    deviceCount p' = (Z.of_nat (List.length (cards p')) - 1)%Z.
Proof.
  apply (@disconnect_counter_off_by_one
           {| cards := [{| device := "m1"; image := VStr "frameA";
                           label := VStr "Cowboy1"; live := false |}];
              deviceCount := 1; currentLiveDevice := None |} "m1").
  - repeat constructor. simpl. tauto.
  - reflexivity.
  - reflexivity.
Defined.



End ControlRoomPage.

(** ** [public/js/control-room.js]: the live mark *)
Section ControlRoomLive.
Import ControlRoom.

Lemma In_update_card (d : string) (f : card -> card) (l : list card) (c : card) :
  In c (update_card d f l) ->
  In c l \/ exists c0, In c0 l /\ device c0 = d /\ c = f c0.
Proof.
  induction l as [|x l IH]; simpl; [tauto|].
  destruct (String.eqb_spec d (device x)) as [->|Hne]; simpl.
  - intros [<-|Hin]; [right; eauto | auto].
  - intros [<-|Hin]; [auto|].
    destruct (IH Hin) as [H|(c0 & H1 & H2 & H3)]; [auto|].
    right. exists c0. auto.
Qed.

Lemma update_card_hit (d : string) (f : card -> card) (l : list card) (c : card) :
  (forall x, device (f x) = device x) ->
  NoDup (map device l) ->
  In c (update_card d f l) -> device c = d ->
  exists c0, c = f c0.
Proof.
  intros Hf. induction l as [|x l IH]; simpl; [tauto|].
  intros Hnd. inversion Hnd as [|? ? Hnin Hnd']; subst.
  destruct (String.eqb_spec d (device x)) as [->|Hne]; simpl.
  - intros [<-|Hin] Hd; [eauto|].
    exfalso. apply Hnin. rewrite <- Hd. now apply in_map.
  - intros [<-|Hin] Hd; [congruence | auto].
Qed.

Lemma NoDup_map_In_eq (l : list card) (a b : card) :
  NoDup (map device l) -> In a l -> In b l -> device a = device b -> a = b.
Proof.
  induction l as [|x l IH]; simpl; [tauto|].
  intros Hnd. inversion Hnd as [|? ? Hnin Hnd']; subst.
  intros [<-|Ha] [<-|Hb] E; auto.
  - exfalso. apply Hnin. rewrite E. now apply in_map.
  - exfalso. apply Hnin. rewrite <- E. now apply in_map.
Qed.

Lemma addDevicePreview_live (d : string) (n pv : value) (p : page) :
  live_marks_current p -> live_marks_current (addDevicePreview d n pv p).
Proof.
  intros (Hnd & Hl & Hc).
  pose proof (shown_addDevicePreview d n pv p) as Hs.
  unfold addDevicePreview in *.
  destruct (addresses_grid d || has_card d p) eqn:E; [repeat split; auto|].
  apply orb_false_iff in E as [_ Eh]. apply has_card_not_In in Eh.
  repeat split; simpl; auto.
  - unfold shown in *. simpl. rewrite map_app. simpl.
    apply NoDup_app; [assumption | repeat constructor; auto |].
    intros x Hx [<-|[]]. auto.
  - intros c Hin Hlive. apply in_app_or in Hin as [Hin|[<-|[]]]; [auto | discriminate].
Qed.

Lemma handle_live (p : page) (m : incoming) (p' : page) :
  (forall d, m = DeviceIsLive d -> d <> ""%string) ->
  live_marks_current p -> handle p m = Some p' -> live_marks_current p'.
Proof.
  intros Hid Hinv. destruct m; simpl.
  - clear Hid. intros [= <-].
    assert (live_marks_current (updateDeviceCount (Z.of_nat (List.length devices)) p)) as H0
      by exact Hinv.
    revert H0. generalize (updateDeviceCount (Z.of_nat (List.length devices)) p).
    induction devices as [|d ds IH]; simpl; auto.
    intros q Hq. apply IH. now apply addDevicePreview_live.
  - intros [= <-]. now apply addDevicePreview_live.
  - destruct (addresses_grid deviceId); [discriminate|].
    destruct (has_card deviceId p); intros [= <-]; [|assumption].
    destruct Hinv as (Hnd & Hl & Hc). repeat split; simpl; auto.
    + now apply remove_card_NoDup.
    + intros c Hin. apply remove_card_incl in Hin. auto.
  - intros [= <-]. unfold updateDevicePreview.
    destruct (truthy preview0); [|assumption].
    destruct Hinv as (Hnd & Hl & Hc). repeat split; simpl; auto.
    + unfold shown. simpl. now rewrite update_card_devices.
    + intros c Hin Hlive.
      apply In_update_card in Hin as [Hin|(c0 & H1 & H2 & ->)]; [auto|].
      simpl in *. auto.
  - specialize (Hid deviceId eq_refl).
    destruct Hinv as (Hnd & Hl & Hc). unfold updateLiveStatus.
    assert (forall l,
               map device l = shown p ->
               (forall c, In c l -> live c = false) ->
               live_marks_current
                 {| cards := update_card deviceId (set_live true) l;
                    deviceCount := deviceCount p;
                    currentLiveDevice := Some deviceId |}) as Hset.
    { intros l Hdev Hnone. repeat split; simpl.
      - unfold shown. simpl. rewrite update_card_devices by reflexivity.
        now rewrite Hdev.
      - intros c Hin Hlive.
        apply In_update_card in Hin as [Hin|(c0 & H1 & H2 & ->)].
        + rewrite (Hnone c Hin) in Hlive. discriminate.
        + simpl. now rewrite H2.
      - congruence. }
    destruct (currentLiveDevice p) as [prev|] eqn:Ecur.
    + destruct (String.eqb_spec prev "") as [->|Hprev]; [congruence|].
      destruct (addresses_grid prev); [discriminate|].
      destruct (addresses_grid deviceId); [discriminate|].
      intros [= <-]. apply Hset.
      * now apply update_card_devices.
      * intros c Hin. destruct (live c) eqn:Hlive; [|reflexivity].
        exfalso.
        assert (device c = prev) as Hd.
        { apply In_update_card in Hin as [Hin|(c0 & H1 & H2 & ->)].
          - specialize (Hl c Hin Hlive). congruence.
          - simpl. assumption. }
        destruct (@update_card_hit prev (set_live false) (cards p) c) as (c0 & ->);
          auto.
        discriminate.
    + destruct (addresses_grid deviceId); [discriminate|].
      intros [= <-]. apply Hset; [reflexivity|].
      intros c Hin. destruct (live c) eqn:Hlive; [|reflexivity].
      specialize (Hl c Hin Hlive). discriminate.
Qed.

(** At most one card is marked live, and it is the card of the device named
    by the last [device-is-live]: a new live device takes the mark off the
    previous one.  This needs the ids in [device-is-live] to be non-empty,
    as socket ids are; the script skips the un-marking when the previous id
    is the empty string. *)
Theorem at_most_one_live_card (ms : list incoming) (p' : page) :
  (forall d, In (DeviceIsLive d) ms -> d <> ""%string) ->
  handle_all init ms = Some p' ->
  (forall c1 c2, In c1 (live_cards p') -> In c2 (live_cards p') -> c1 = c2) /\
  (forall c, In c (live_cards p') -> currentLiveDevice p' = Some (device c)).
Proof.
  intros Hids Hrun.
  assert (live_marks_current p') as (Hnd & Hl & Hc).
  { assert (live_marks_current init) as H0.
    { repeat split; simpl; [constructor | tauto | discriminate]. }
    revert H0 Hrun. generalize init. revert Hids.
    induction ms as [|m ms IH]; simpl; intros Hids p Hp.
    - intros [= <-]. exact Hp.
    - destruct (handle p m) as [p1|] eqn:E; [|discriminate].
      apply IH; [intros d Hd; apply Hids; auto|].
      eapply handle_live; eauto; intros d ->; apply Hids; auto. }
  unfold live_cards. split.
  - intros c1 c2 H1 H2. apply filter_In in H1 as [H1 L1], H2 as [H2 L2].
    apply (NoDup_map_In_eq (cards p')); auto.
    pose proof (Hl c1 H1 L1). pose proof (Hl c2 H2 L2). congruence.
  - intros c H. apply filter_In in H as [H L]. auto.
Qed.

Lemma at_most_one_live_card_witness :
  exists p',
    handle_all init
      [DeviceConnected "m1" (VStr "Cowboy1"); DeviceConnected "m2" VUndefined;
       DeviceIsLive "m1"; DeviceIsLive "m2"] = Some p' /\
    (forall c1 c2, In c1 (live_cards p') -> In c2 (live_cards p') -> c1 = c2) /\
    (forall c, In c (live_cards p') -> currentLiveDevice p' = Some (device c)).
Proof.
  eexists. split; [reflexivity|].
  apply (@at_most_one_live_card
           [DeviceConnected "m1" (VStr "Cowboy1"); DeviceConnected "m2" VUndefined;
            DeviceIsLive "m1"; DeviceIsLive "m2"]).
  - intros d [H|[H|[H|[H|[]]]]]; inversion H; subst; discriminate.
  - reflexivity.
Defined.

End ControlRoomLive.

(** ** Server and pages together (all written out by [src/setup.js]) *)
Section ServerAndPages.

Lemma decode_device_summary (k : string) (d : Setup.device) :
  ControlRoom.decode (Setup.device_summary (k, d)) =
    Some {| ControlRoom.id := k;
            ControlRoom.name := Setup.name d;
            ControlRoom.preview := Setup.preview d |}.
Proof. reflexivity. Qed.

Lemma fold_addDevicePreview (ds : list ControlRoom.info) (q : ControlRoom.page) :
  NoDup (ControlRoom.shown q ++ map ControlRoom.id ds) ->
  ~ In "grid"%string (map ControlRoom.id ds) ->
  ControlRoom.cards
    (fold_left (fun q d => ControlRoom.addDevicePreview
                             (ControlRoom.id d) (ControlRoom.name d)
                             (ControlRoom.preview d) q) ds q)
    = ControlRoom.cards q ++ map ControlRoom.to_card ds /\
  ControlRoom.deviceCount
    (fold_left (fun q d => ControlRoom.addDevicePreview
                             (ControlRoom.id d) (ControlRoom.name d)
                             (ControlRoom.preview d) q) ds q)
    = ControlRoom.deviceCount q.
Proof.
  revert q. induction ds as [|d ds IH]; simpl; intros q Hnd Hg.
  - now rewrite List.app_nil_r.
  - assert (ControlRoom.addresses_grid (ControlRoom.id d) = false) as Eg.
    { unfold ControlRoom.addresses_grid. apply String.eqb_neq. intros E. auto. }
    assert (ControlRoom.has_card (ControlRoom.id d) q = false) as Eh.
    { apply has_card_not_In. intros Hin.
      apply NoDup_remove_2 in Hnd. apply Hnd. apply in_or_app. now left. }
    assert (ControlRoom.addDevicePreview (ControlRoom.id d) (ControlRoom.name d)
              (ControlRoom.preview d) q
            = ControlRoom.set_cards (ControlRoom.cards q ++ [ControlRoom.to_card d]) q) as Eadd.
    { unfold ControlRoom.addDevicePreview. now rewrite Eg, Eh. }
    rewrite Eadd. destruct (IH (ControlRoom.set_cards
                                  (ControlRoom.cards q ++ [ControlRoom.to_card d]) q))
      as [H1 H2].
    + unfold ControlRoom.shown in *. simpl. rewrite map_app. simpl.
      rewrite <- List.app_assoc. simpl. exact Hnd.
    + tauto.
    + rewrite H1, H2. simpl. rewrite <- List.app_assoc. auto.
Qed.

(** A control-room page that has just loaded shows exactly the registered
    devices: from the [device-list-update] the server sends it on
    [control-room-connected], it builds one card per registry entry, in
    registry order, with the stored preview (or the placeholder image) and
    the stored name, none marked live, and the counter equals the number of
    cards.  (No device may have the id ["grid"], the id of the grid
    itself.) *)
Theorem fresh_control_room_shows_registry (s : Setup.state) (sid : string) :
  Setup.reachable s ->
  ~ In "grid"%string (keys (Setup.connectedDevices s)) ->
  exists s' list devices p',
    Setup.control_room_connected s sid =
      Ok (s', [Msg (ToSocket sid) "device-list-update" (VArr list)]) /\
    map ControlRoom.decode list = map Some devices /\
    ControlRoom.handle ControlRoom.init (ControlRoom.DeviceListUpdate devices) = Some p' /\
    ControlRoom.shown p' = keys (Setup.connectedDevices s) /\
    ControlRoom.cards p' =
      map (fun kd => {| ControlRoom.device := fst kd;
                        ControlRoom.image :=
                          if truthy (Setup.preview (snd kd)) then Setup.preview (snd kd)
                          else VStr "/images/waiting-for-preview.png";
                        ControlRoom.label :=
                          or_else (Setup.name (snd kd)) (VStr "Unknown Device");
                        ControlRoom.live := false |})
          (Setup.connectedDevices s) /\
    ControlRoom.deviceCount p' = Z.of_nat (List.length (ControlRoom.cards p')).
Proof.
  intros Hr Hg. apply reachable_NoDup in Hr.
  set (devices := map (fun kd : string * Setup.device =>
                         {| ControlRoom.id := fst kd;
                            ControlRoom.name := Setup.name (snd kd);
                            ControlRoom.preview := Setup.preview (snd kd) |})
                      (Setup.connectedDevices s)).
  assert (map ControlRoom.id devices = keys (Setup.connectedDevices s)) as Hids.
  { unfold devices, keys. rewrite map_map. reflexivity. }
  destruct (@fold_addDevicePreview devices
              (ControlRoom.updateDeviceCount (Z.of_nat (List.length devices))
                 ControlRoom.init)) as [Hcards Hcount].
  { simpl. now rewrite Hids. }
  { now rewrite Hids. }
  simpl in Hcards, Hcount.
  exists (Setup.join "control-room" sid s), (Setup.deviceList s), devices.
  eexists. split; [|split; [|split; [reflexivity|]]].
  - unfold Setup.control_room_connected, Setup.join.
    destruct (existsb _ (Setup.rooms s)); reflexivity.
  - unfold Setup.deviceList, devices. rewrite !map_map.
    apply map_ext. intros [k d]. apply decode_device_summary.
  - unfold ControlRoom.shown. rewrite Hcards, Hcount.
    repeat split.
    + rewrite map_map, <- Hids. reflexivity.
    + unfold devices. rewrite map_map. reflexivity.
    + now rewrite !length_map.
Qed.

Lemma fresh_control_room_shows_registry_witness :
  exists s' list devices p',
    Setup.control_room_connected
      {| Setup.connectedDevices :=
           [("m1", {| Setup.type := "mobile"; Setup.name := VStr "Cowboy1";
                      Setup.preview := VNull |})];
         Setup.sockets := ["m1"]; Setup.rooms := [] |}
      "control" =
      Ok (s', [Msg (ToSocket "control") "device-list-update" (VArr list)]) /\
    map ControlRoom.decode list = map Some devices /\
    ControlRoom.handle ControlRoom.init (ControlRoom.DeviceListUpdate devices) = Some p' /\
    ControlRoom.shown p' = ["m1"] /\
    ControlRoom.cards p' =
      [{| ControlRoom.device := "m1";
          ControlRoom.image := VStr "/images/waiting-for-preview.png";
          ControlRoom.label := VStr "Cowboy1";
          ControlRoom.live := false |}] /\
    ControlRoom.deviceCount p' = Z.of_nat (List.length (ControlRoom.cards p')).
Proof.
  apply (@fresh_control_room_shows_registry
           {| Setup.connectedDevices :=
                [("m1", {| Setup.type := "mobile"; Setup.name := VStr "Cowboy1";
                           Setup.preview := VNull |})];
              Setup.sockets := ["m1"]; Setup.rooms := [] |}
           "control").
  - apply (@Setup.reachable_step
             {| Setup.connectedDevices := []; Setup.sockets := ["m1"]; Setup.rooms := [] |}
             (Setup.RegisterMobileDevice "m1" (VObj [("name", VStr "Cowboy1")])) _
             [Msg (ToRoom "control-room") "device-connected"
                  (VObj [("id", VStr "m1"); ("type", VStr "mobile");
                         ("name", VStr "Cowboy1")])]);
      [|reflexivity].
    apply (@Setup.reachable_step Setup.init (Setup.Connection "m1") _ []);
      [|reflexivity].
    apply Setup.reachable_init.
  - simpl. intros [H|[]]. discriminate.
Defined.

(** An accepted [go-live] reaches the pages as meant: from its two messages
    the arena page shows the target's stored preview (whatever it showed
    before) under the fixed logo and title, and the LIVE indicator is
    visible on the mobile page of the target and hidden on every other
    mobile page. *)
Theorem go_live_reaches_the_pages
    (s : Setup.state) (sid c : string) (dev : Setup.device) :
  assoc_get sid (Setup.connectedDevices s) = Some dev ->
  truthy (Setup.preview dev) = true ->
  exists frame announce,
    Setup.go_live s c (VStr sid) =
      Ok (s, [Msg (ToRoom "arena-display") "arena-display-update" frame;
              Msg ToAll "device-is-live" announce]) /\
    (forall page,
        ArenaDisplay.on_arena_display_update frame page =
          {| ArenaDisplay.content := Some (Setup.preview dev);
             ArenaDisplay.logo := VStr "/images/dodge-ram-logo.png";
             ArenaDisplay.title := VStr "RENO RODEO" |}) /\
    (forall socket_id,
        Mobile.indicator_hidden socket_id announce = negb (String.eqb socket_id sid)).
Proof.
  intros Hdev Ht. unfold Setup.go_live. simpl. rewrite Hdev, Ht.
  eexists _, _. split; [reflexivity|]. split.
  - intros page. unfold ArenaDisplay.on_arena_display_update. simpl. now rewrite Ht.
  - reflexivity.
Qed.

Lemma go_live_reaches_the_pages_witness :
  exists frame announce,
    Setup.go_live
      {| Setup.connectedDevices :=
           [("m1", {| Setup.type := "mobile"; Setup.name := VStr "Cowboy1";
                      Setup.preview := VStr "frameA" |})];
         Setup.sockets := ["m1"; "control"]; Setup.rooms := [] |}
      "control" (VStr "m1") =
      Ok ({| Setup.connectedDevices :=
               [("m1", {| Setup.type := "mobile"; Setup.name := VStr "Cowboy1";
                          Setup.preview := VStr "frameA" |})];
             Setup.sockets := ["m1"; "control"]; Setup.rooms := [] |},
          [Msg (ToRoom "arena-display") "arena-display-update" frame;
           Msg ToAll "device-is-live" announce]) /\
    (forall page,
        ArenaDisplay.on_arena_display_update frame page =
          {| ArenaDisplay.content := Some (VStr "frameA");
             ArenaDisplay.logo := VStr "/images/dodge-ram-logo.png";
             ArenaDisplay.title := VStr "RENO RODEO" |}) /\
    (forall socket_id,
        Mobile.indicator_hidden socket_id announce = negb (String.eqb socket_id "m1")).
Proof.
  apply (@go_live_reaches_the_pages
           {| Setup.connectedDevices :=
                [("m1", {| Setup.type := "mobile"; Setup.name := VStr "Cowboy1";
                           Setup.preview := VStr "frameA" |})];
              Setup.sockets := ["m1"; "control"]; Setup.rooms := [] |}
           "m1" "control"
           {| Setup.type := "mobile"; Setup.name := VStr "Cowboy1";
              Setup.preview := VStr "frameA" |});
    reflexivity.
Defined.

End ServerAndPages.

(** ** [src/server.js]: repeated uploads *)
Section ServerUploadTwice.
Import Server.
Variable dirname : string.

Lemma assoc_has_set_keep (k k' : string) (v : string) (m : list (string * string)) :
  assoc_has k m = true -> assoc_has k (assoc_set k' v m) = true.
Proof.
  unfold assoc_has. intros H.
  destruct (assoc_get k m) eqn:G; [|discriminate].
  assert (In k (keys m)) as Hin by (apply assoc_get_In; congruence).
  apply (@In_keys_set_keep _ k k' v) in Hin. apply assoc_get_In in Hin.
  destruct (assoc_get k (assoc_set k' v m)); [reflexivity | congruence].
Qed.

(** Once an upload under a file name has completed, a second upload under
    the same name completes too: it replaces the content of the first, adds
    no file, finds the uploads path taken and makes no directory. *)
Theorem upload_sponsor_overwrites
    (s : state) (sid fn fd1 fd2 b2 : string) (s1 : state) (out1 : list message) :
  upload_sponsor dirname s sid
    (VObj [("fileName", VStr fn); ("fileData", VStr fd1)]) = Ok (s1, out1) ->
  nth_error (Path.split_on "," fd2) 1 = Some b2 ->
  exists s2,
    upload_sponsor dirname s1 sid
      (VObj [("fileName", VStr fn); ("fileData", VStr fd2)]) =
      Ok (s2, [Msg (ToSocket sid) "sponsor-uploaded"
                   (VObj [("url", VStr ("/uploads/" ++ fn)%string)])]) /\
    assoc_get (upload_path dirname fn) (fs_files s2) = Some b2 /\
    keys (fs_files s2) = keys (fs_files s1) /\
    existsSync s1 (uploads_dir dirname) = true /\
    fs_dirs s2 = fs_dirs s1.
Proof.
  intros H1 H2.
  apply upload_sponsor_Ok in H1
    as (fn' & fd' & b1 & dirs & files & Hfn & _ & _ & Hd & Hw & -> & _).
  injection Hfn as <-.
  assert (existsSync (set_fs dirs files s) (uploads_dir dirname) = true) as Hex.
  { apply writeFileSync_Ok in Hw as (-> & _).
    unfold existsSync. simpl.
    apply ensure_uploads_dir_Ok in Hd as [[-> E]|[_ E]].
    - unfold existsSync in E. apply orb_true_iff in E as [E|E].
      + now rewrite E.
      + apply orb_true_iff. right. now apply assoc_has_set_keep.
    - now rewrite E. }
  assert (ensure_uploads_dir dirname (set_fs dirs files s) = Ok dirs) as Hd2
    by (unfold ensure_uploads_dir; now rewrite Hex).
  assert (writeFileSync dirs files (upload_path dirname fn) b2 =
          Ok (assoc_set (upload_path dirname fn) b2 files)) as Hw2.
  { apply writeFileSync_Ok in Hw as (_ & Hn & Ht & Hdir & Hp).
    unfold writeFileSync. now rewrite Hn, Ht, Hdir, Hp. }
  eexists. split; [|split; [|split; [|split]]].
  - apply (@upload_sponsor_run dirname (set_fs dirs files s) sid
             [("fileName", VStr fn); ("fileData", VStr fd2)] fn fd2 b2 dirs
             (assoc_set (upload_path dirname fn) b2 files));
      [reflexivity | reflexivity | assumption | assumption | exact Hw2].
  - simpl. apply assoc_get_set_same.
  - simpl. apply keys_set_present.
    apply writeFileSync_Ok in Hw as (-> & _).
    unfold assoc_has. now rewrite assoc_get_set_same.
  - exact Hex.
  - reflexivity.
Qed.

End ServerUploadTwice.

Lemma upload_sponsor_overwrites_witness :
  exists s2,
    Server.upload_sponsor "/srv/app"
      (Server.set_fs
         ["/srv"; "/srv/app"; "/srv/app/public"; "/srv/app/public/uploads"]
         [("/srv/app/public/uploads/logo.png", "AAAA"%string)] Server.init)
      "control"
      (VObj [("fileName", VStr "logo.png"); ("fileData", VStr "data:image/png;base64,BBBB")])
      = Ok (s2, [Msg (ToSocket "control") "sponsor-uploaded"
                     (VObj [("url", VStr "/uploads/logo.png")])]) /\
    assoc_get (Server.upload_path "/srv/app" "logo.png") (Server.fs_files s2)
      = Some "BBBB"%string /\
    keys (Server.fs_files s2) = ["/srv/app/public/uploads/logo.png"] /\
    Server.existsSync
      (Server.set_fs
         ["/srv"; "/srv/app"; "/srv/app/public"; "/srv/app/public/uploads"]
         [("/srv/app/public/uploads/logo.png", "AAAA"%string)] Server.init)
      (Server.uploads_dir "/srv/app") = true /\
    Server.fs_dirs s2 =
      ["/srv"; "/srv/app"; "/srv/app/public"; "/srv/app/public/uploads"].
Proof.
  apply (@upload_sponsor_overwrites "/srv/app" Server.init "control" "logo.png"
           "data:image/png;base64,AAAA" "data:image/png;base64,BBBB" "BBBB"
           (Server.set_fs
              ["/srv"; "/srv/app"; "/srv/app/public"; "/srv/app/public/uploads"]
              [("/srv/app/public/uploads/logo.png", "AAAA"%string)] Server.init)
           [Msg (ToSocket "control") "sponsor-uploaded"
                (VObj [("url", VStr "/uploads/logo.png")])]);
    reflexivity.
Defined.

(** ** The server of [src/setup.js]: [start-preview] *)
Section SetupStartPreview.
Import Setup.




End SetupStartPreview.

(** ** [src/server.js]: the mobile settings merge *)
Section ServerMobileMerge.
Import Server.

(** What a key reads after [{...acc, ...props}]: the value [props] gives it,
    or else what [acc] had. *)
Lemma spread_lookup (props acc : list (string * value)) (k : string) :
  NoDup (keys props) ->
  assoc_get k (spread acc (VObj props)) =
    match assoc_get k props with
    | Some v => Some v
    | None => assoc_get k acc
    end.
Proof.
  unfold spread. simpl. revert acc.
  induction props as [|[k0 v0] props IH]; simpl; intros acc Hnd; [reflexivity|].
  inversion Hnd as [|? ? Hnin Hnd']; subst.
  rewrite IH by assumption.
  destruct (String.eqb_spec k k0) as [->|Hne].
  - apply assoc_get_None in Hnin. rewrite Hnin. apply assoc_get_set_same.
  - now rewrite assoc_get_set_other.
Qed.

(** [update-mobile-settings] merges key by key: every key of the update
    reads the value the update gives it, every other key reads what it read
    before (nothing, if it was never set), the display settings are not
    touched, and the update goes on to the other sockets as it came. *)
Theorem mobile_settings_merge_per_key (s : state) (sid : string)
    (f : list (string * value)) :
  NoDup (keys (mobileSettings s)) ->
  NoDup (keys f) ->
  exists s',
    update_mobile_settings s sid (VObj f) =
      Ok (s', [Msg (ToOthers sid) "mobile-settings-updated" (VObj f)]) /\
    (forall k v, assoc_get k f = Some v -> assoc_get k (mobileSettings s') = Some v) /\
    (forall k, assoc_get k f = None ->
               assoc_get k (mobileSettings s') = assoc_get k (mobileSettings s)) /\
    displaySettings s' = displaySettings s.
Proof.
  intros Hs Hf. unfold update_mobile_settings. eexists. split; [reflexivity|].
  simpl. split; [|split; [|reflexivity]].
  - intros k v Hk. now rewrite spread_lookup, Hk.
  - intros k Hk. rewrite spread_lookup, Hk by assumption.
    rewrite spread_lookup by assumption.
    now destruct (assoc_get k (mobileSettings s)).
Qed.

End ServerMobileMerge.

Lemma mobile_settings_merge_per_key_witness :
  exists s',
    Server.update_mobile_settings
      (Server.set_mobileSettings
         [("cameraFlip", VBool true); ("demoMode", VBool false);
          ("mainboardPopup", VBool false)] Server.init)
      "control" (VObj [("demoMode", VBool true); ("zoom", VNum 2)]) =
      Ok (s', [Msg (ToOthers "control") "mobile-settings-updated"
                   (VObj [("demoMode", VBool true); ("zoom", VNum 2)])]) /\
    (forall k v,
        assoc_get k [("demoMode", VBool true); ("zoom", VNum 2)] = Some v ->
        assoc_get k (Server.mobileSettings s') = Some v) /\
    (forall k,
        assoc_get k [("demoMode", VBool true); ("zoom", VNum 2)] = None ->
        assoc_get k (Server.mobileSettings s') =
        assoc_get k [("cameraFlip", VBool true); ("demoMode", VBool false);
                     ("mainboardPopup", VBool false)]) /\
    Server.displaySettings s' = Server.default_displaySettings.
Proof.
  apply (@mobile_settings_merge_per_key
           (Server.set_mobileSettings
              [("cameraFlip", VBool true); ("demoMode", VBool false);
               ("mainboardPopup", VBool false)] Server.init)
           "control" [("demoMode", VBool true); ("zoom", VNum 2)]).
  - repeat constructor; simpl; intuition discriminate.
  - repeat constructor; simpl; intuition discriminate.
Defined.
